(** * FrameDispatcher: a shallow embedding of src/dispatchers/frameDispatcher.ts

    The dispatcher methods are state-passing functions over an explicit
    connection state (guid counter, the dispatcher symbol stored on the
    underlying objects, the messages sent to the client, the controllers
    and runner invocations).  Object literals with a spread
    ([{ ...metadata, type: 'click', ... }]) are finite maps from property
    names to JavaScript values.  Operations of the underlying frame are
    awaited results supplied by a [FrameBehaviour] record. *)

From Stdlib Require Import ZArith String List.
From stdpp Require Import base option countable gmap strings list.

Local Open Scope string_scope.
Local Open Scope Z_scope.
Local Open Scope list_scope.

(** ** JavaScript values and objects *)

Inductive JsValue :=
| JUndefined
| JNull
| JBool (b : bool)
| JNum (z : Z)
| JStr (s : string)
| JPage (page : nat).

(** An object literal: property name to value. *)
Abbreviation JsObject := (gmap string JsValue).

(** [T | null] as returned by the underlying frame. *)
Inductive Nullable (A : Type) :=
| Null
| NotNull (a : A).
Arguments Null {A}.
Arguments NotNull {A} a.

(** A property of a wire result: absent ([undefined]), a present [null],
    or a present value. *)
Inductive Field (A : Type) :=
| Absent
| PresentNull
| Present (a : A).
Arguments Absent {A}.
Arguments PresentNull {A}.
Arguments Present {A} a.

(** ** Underlying objects *)

Inductive Obj :=
| OFrame (id : nat)
| OElementHandle (id : nat)
| OJSHandle (id : nat)
| ORequest (id : nat)
| OResponse (id : nat).

#[global] Instance Obj_eq_dec : EqDecision Obj.
Proof. solve_decision. Defined.

Definition Obj_encode (o : Obj) : nat * nat :=
  match o with
  | OFrame i => (0%nat, i)
  | OElementHandle i => (1%nat, i)
  | OJSHandle i => (2%nat, i)
  | ORequest i => (3%nat, i)
  | OResponse i => (4%nat, i)
  end.

Definition Obj_decode (p : nat * nat) : Obj :=
  match p with
  | (0%nat, i) => OFrame i
  | (1%nat, i) => OElementHandle i
  | (2%nat, i) => OJSHandle i
  | (3%nat, i) => ORequest i
  | (_, i) => OResponse i
  end.

Lemma Obj_decode_encode (o : Obj) : Obj_decode (Obj_encode o) = o.
Proof. destruct o; reflexivity. Qed.

#[global] Instance Obj_countable : Countable Obj :=
  inj_countable' Obj_encode Obj_decode Obj_decode_encode.

(** The part of [Frame] (server/frames) that the dispatcher reads. *)
Record Frame := {
  frame_url : string;
  frame_name : string;
  frame_parentFrame : option nat;
  frame_subtreeLifecycleEvents : list string;
  frame_page : nat;
}.

(** A [JSHandle] of the page: [asElement()] is the element it refers to, or
    null. *)
Record JSHandle := {
  handle_id : nat;
  handle_asElement : option nat;
}.

(** [NavigationEvent] of server/frames, as the Navigation handler reads it. *)
Record DocumentInfo := {
  doc_request : option nat;
}.

Record JsError := {
  err_message : string;
}.

Record NavigationEvent := {
  nav_url : string;
  nav_name : option string;
  nav_newDocument : option DocumentInfo;
  nav_error : option JsError;
}.

(** What a frame notifies its listeners of ([Frame.Events]). *)
Inductive FrameNotification :=
| AddLifecycle (lifecycleEvent : string)
| RemoveLifecycle (lifecycleEvent : string)
| Navigation (event : NavigationEvent).

(** ** Dispatchers, messages and the connection state *)

Record Dispatcher := {
  d_guid : nat;
  d_type : string;
  d_scope : nat;
  d_object : Obj;
}.

#[global] Instance Dispatcher_eq_dec : EqDecision Dispatcher.
Proof. solve_decision. Defined.

Record FrameInitializer := {
  init_url : string;
  init_name : string;
  init_parentFrame : option Dispatcher;
  init_loadStates : list string;
}.

Inductive Initializer :=
| InitFrame (i : FrameInitializer)
| InitOther.

Record NewDocumentParams := {
  nd_request : option Dispatcher;
}.

Record NavigatedParams := {
  np_url : string;
  np_name : option string;
  np_error : option string;
  np_newDocument : option NewDocumentParams;
}.

Inductive EventParams :=
| LoadstateAdd (lifecycleEvent : string)
| LoadstateRemove (lifecycleEvent : string)
| Navigated (params : NavigatedParams).

Inductive ChannelMessage :=
| MsgCreate (parent : nat) (type : string) (guid : nat) (initializer : Initializer)
| MsgEvent (guid : nat) (name : string) (params : EventParams).

(** [ActionMetadata] of server/instrumentation is an object. *)
Abbreviation ActionMetadata := (gmap string JsValue).

Record ProgressController := {
  pc_timeout : Z;
  pc_metadata : ActionMetadata;
}.

Inductive ActionCall :=
| NewProgressController (c : ProgressController)
| RunAbortableTask (timeout : Z) (metadata : ActionMetadata).

Record Page := {
  page_defaultTimeout : Z;
  page_defaultNavigationTimeout : Z;
}.

Record State := {
  st_nextGuid : nat;
  st_symbol : gmap Obj Dispatcher;       (* object[dispatcherSymbol] *)
  st_dispatchers : list Dispatcher;      (* every node constructed so far *)
  st_listeners : list (nat * Dispatcher);(* frame id, subscribed FrameDispatcher *)
  st_sent : list ChannelMessage;         (* messages to the client, oldest first *)
  st_actions : list ActionCall;          (* controllers created, tasks run *)
  st_frames : nat -> Frame;              (* the live frames *)
  st_pages : nat -> Page;                (* the pages and their timeout settings *)
}.

(** ** Outcomes and the dispatcher monad *)

Inductive Error :=
| TimeoutError (metadata : ActionMetadata)
| OtherError (message : string).

Inductive Outcome (A : Type) :=
| Ok (a : A)
| Throw (e : Error).
Arguments Ok {A} a.
Arguments Throw {A} e.

Definition M (A : Type) : Type := State -> Outcome A * State.

Definition ret {A} (a : A) : M A := fun st => (Ok a, st).

Definition bind {A B} (m : M A) (k : A -> M B) : M B :=
  fun st =>
    match m st with
    | (Ok a, st') => k a st'
    | (Throw e, st') => (Throw e, st')
    end.

(** [await p]: the awaited promise either yields its value or rejects. *)
Definition await {A} (p : Outcome A) : M A := fun st => (p, st).

Definition gets {A} (f : State -> A) : M A := fun st => (Ok (f st), st).

Declare Scope disp_scope.
Delimit Scope disp_scope with disp.
Notation "x <- m ;; k" := (bind m (fun x => k))
  (at level 100, m at next level, right associativity) : disp_scope.
Local Open Scope disp_scope.

Fixpoint mapM {A B} (f : A -> M B) (l : list A) : M (list B) :=
  match l with
  | [] => ret []
  | a :: l' => b <- f a ;; bs <- mapM f l' ;; ret (b :: bs)
  end.

(** Field-wise updates of the connection state. *)
Definition set_symbol (f : gmap Obj Dispatcher -> gmap Obj Dispatcher) (st : State) : State :=
  {| st_nextGuid := st_nextGuid st; st_symbol := f (st_symbol st);
     st_dispatchers := st_dispatchers st; st_listeners := st_listeners st;
     st_sent := st_sent st; st_actions := st_actions st;
     st_frames := st_frames st; st_pages := st_pages st |}.

Definition send (m : ChannelMessage) (st : State) : State :=
  {| st_nextGuid := st_nextGuid st; st_symbol := st_symbol st;
     st_dispatchers := st_dispatchers st; st_listeners := st_listeners st;
     st_sent := st_sent st ++ [m]; st_actions := st_actions st;
     st_frames := st_frames st; st_pages := st_pages st |}.

Definition add_dispatcher (d : Dispatcher) (st : State) : State :=
  {| st_nextGuid := S (st_nextGuid st); st_symbol := st_symbol st;
     st_dispatchers := st_dispatchers st ++ [d]; st_listeners := st_listeners st;
     st_sent := st_sent st; st_actions := st_actions st;
     st_frames := st_frames st; st_pages := st_pages st |}.

Definition add_listener (frame : nat) (d : Dispatcher) (st : State) : State :=
  {| st_nextGuid := st_nextGuid st; st_symbol := st_symbol st;
     st_dispatchers := st_dispatchers st;
     st_listeners := st_listeners st ++ [(frame, d)];
     st_sent := st_sent st; st_actions := st_actions st;
     st_frames := st_frames st; st_pages := st_pages st |}.

Definition log_action (a : ActionCall) (st : State) : State :=
  {| st_nextGuid := st_nextGuid st; st_symbol := st_symbol st;
     st_dispatchers := st_dispatchers st; st_listeners := st_listeners st;
     st_sent := st_sent st; st_actions := st_actions st ++ [a];
     st_frames := st_frames st; st_pages := st_pages st |}.

Definition set_frame (frame : nat) (f : Frame) (st : State) : State :=
  {| st_nextGuid := st_nextGuid st; st_symbol := st_symbol st;
     st_dispatchers := st_dispatchers st; st_listeners := st_listeners st;
     st_sent := st_sent st; st_actions := st_actions st;
     st_frames := fun i => if Nat.eqb i frame then f else st_frames st i;
     st_pages := st_pages st |}.

Definition modify (f : State -> State) : M unit := fun st => (Ok tt, f st).

(** ** The dispatcher base (dispatchers/dispatcher.ts) *)

(** Modelled from the spec: dispatcher.ts is not among the sources.  The
    Identity Registry keeps, for an underlying object, the node that wraps
    it; [existingDispatcher] is its lookup ("if a live node already wraps
    [underlying] ... return it"). *)
Definition existingDispatcher (object : Obj) : M (option Dispatcher) :=
  gets (fun st => st_symbol st !! object).

(** Modelled from the spec: dispatcher.ts is not among the sources.
    "lookupNullable(underlyingOrNone): returns the existing node or none
    without creating one". *)
Definition lookupNullableDispatcher (object : option Obj) : M (option Dispatcher) :=
  match object with
  | Some o => gets (fun st => st_symbol st !! o)
  | None => ret None
  end.

(** Modelled from the spec: the constructor of the [Dispatcher] base class
    is not among the sources.  It "build[s] a new node, register[s] it,
    emit[s] a create message"; the id is "globally unique, stable for the
    node's lifetime" (here: the next value of a counter). *)
Definition new_Dispatcher (scope : nat) (object : Obj) (type : string)
    (initializer : Initializer) : M Dispatcher :=
  fun st =>
    let d := {| d_guid := st_nextGuid st; d_type := type;
                d_scope := scope; d_object := object |} in
    (Ok d,
     send (MsgCreate scope type (d_guid d) initializer)
       (set_symbol (insert object d) (add_dispatcher d st))).

(** Modelled from the spec: [_dispatchEvent] of the base class is not among
    the sources.  A notification becomes "an event message scoped to the
    node's id", enqueued in emission order. *)
Definition _dispatchEvent (this : Dispatcher) (name : string) (params : EventParams) : M unit :=
  modify (send (MsgEvent (d_guid this) name params)).

(** ** dispatchers/networkDispatchers.ts and elementHandlerDispatcher.ts *)

Module RequestDispatcher.

(** Modelled from the spec: networkDispatchers.ts is not among the sources.
    The reference of a navigation "must be resolved through the Identity
    Registry (creating a node ... if none exists)": getOrCreate, the shape
    of [FrameDispatcher.from]. *)
Definition from (scope : nat) (request : nat) : M Dispatcher :=
  result <- existingDispatcher (ORequest request) ;;
  match result with
  | Some d => ret d
  | None => new_Dispatcher scope (ORequest request) "Request" InitOther
  end.

(** Modelled from the spec: networkDispatchers.ts is not among the sources.
    An absent request gives an absent reference. *)
Definition fromNullable (scope : nat) (request : option nat) : M (option Dispatcher) :=
  match request with
  | Some r => d <- from scope r ;; ret (Some d)
  | None => ret None
  end.

End RequestDispatcher.

Module ElementHandleDispatcher.

(** Modelled from the spec: elementHandlerDispatcher.ts is not among the
    sources.  The constructor is the base constructor at kind ElementHandle. *)
Definition new (scope : nat) (elementHandle : nat) : M Dispatcher :=
  new_Dispatcher scope (OElementHandle elementHandle) "ElementHandle" InitOther.

(** Modelled from the spec: elementHandlerDispatcher.ts is not among the
    sources.  A handle is "register[ed] ... through the Identity Registry
    before returning it"; "no matching element" gives an absent result. *)
Definition createNullable (scope : nat) (handle : option nat) : M (option Dispatcher) :=
  match handle with
  | Some h => d <- new scope h ;; ret (Some d)
  | None => ret None
  end.

End ElementHandleDispatcher.

(** Modelled from the spec: elementHandlerDispatcher.ts and
    jsHandleDispatcher.ts are not among the sources.  An evaluation result
    that is a handle becomes "a handle reference": a node for the element it
    refers to, or else a node for the handle itself. *)
Definition createHandle (scope : nat) (handle : JSHandle) : M Dispatcher :=
  match handle_asElement handle with
  | Some e => ElementHandleDispatcher.new scope e
  | None => new_Dispatcher scope (OJSHandle (handle_id handle)) "JSHandle" InitOther
  end.

(** ** server/progress.ts and the timeout settings *)

(** What a unit of interactive work does when it is run under a progress:
    the time it needs, and what it then yields, its result or a failure of
    its own ("element detached"); the work retries silently meanwhile. *)
Inductive WorkResult (A : Type) :=
| Done (a : A)
| Failed (message : string).
Arguments Done {A} a.
Arguments Failed {A} message.

Record Work (A : Type) := {
  w_needs : Z;
  w_result : WorkResult A;
}.
Arguments w_needs {A} w.
Arguments w_result {A} w.

(** Modelled from the spec: progress.ts is not among the sources.
    [run(work, budget, metadata)] creates a controller, hands the metadata to
    the instrumentation, invokes [work]; "if work completes before the
    deadline ... the result is returned", "if the deadline elapses first ...
    the call then fails with a Timeout outcome carrying metadata"; "the
    caller observes exactly one outcome (success, Timeout, or a semantic
    failure)". *)
Definition runAbortableTask {A} (task : ProgressController -> Work A)
    (timeout : Z) (metadata : ActionMetadata) : M A :=
  fun st =>
    let progress := {| pc_timeout := timeout; pc_metadata := metadata |} in
    let st' := log_action (RunAbortableTask timeout metadata) st in
    if w_needs (task progress) <? timeout
    then match w_result (task progress) with
         | Done a => (Ok a, st')
         | Failed message => (Throw (OtherError message), st')
         end
    else (Throw (TimeoutError metadata), st').

(** Modelled from the spec: progress.ts is not among the sources.
    [new ProgressController(timeout, metadata)] makes "one cancellable,
    deadline-bound unit of work" from a budget and a metadata; the controller
    is the pair of its arguments, and its creation is recorded. *)
Definition new_ProgressController (timeout : Z) (metadata : ActionMetadata) : M ProgressController :=
  fun st =>
    let c := {| pc_timeout := timeout; pc_metadata := metadata |} in
    (Ok c, log_action (NewProgressController c) st).

Module TimeoutSettings.

(** Modelled from the spec: the timeout settings are not among the sources.
    "each page-level context supplies a default action timeout and a ...
    default navigation timeout; any per-call timeout param overrides the
    default for that call only". *)
Definition timeout (p : Page) (param : option Z) : Z :=
  match param with
  | Some t => t
  | None => page_defaultTimeout p
  end.

(** Modelled from the spec: as [timeout], with the navigation default. *)
Definition navigationTimeout (p : Page) (param : option Z) : Z :=
  match param with
  | Some t => t
  | None => page_defaultNavigationTimeout p
  end.

End TimeoutSettings.

(** ** protocol/channels.ts: the params and results the methods use

    Every params object also carries the options the method hands on to the
    frame untouched; the frame operations below receive the whole params. *)
Module channels.

Record TimeoutParam := { timeout : option Z }.
Record SelectorParams := { sel_options : TimeoutParam; selector : string }.

Record FrameGotoParams := { goto_options : TimeoutParam; url : string }.
Record FrameSetContentParams := { setContent_options : TimeoutParam; html : string }.
Record FrameFillParams := { fill_target : SelectorParams; value : string }.
Record FrameTypeParams := { type_target : SelectorParams; text : string }.
Record FramePressParams := { press_target : SelectorParams; key : string }.
Record FrameSelectOptionParams := {
  selectOption_target : SelectorParams;
  elements : option (list Dispatcher);
  options : option (list string);
}.
Record FrameSetInputFilesParams := { setInputFiles_target : SelectorParams; files : list string }.
Record FrameGetAttributeParams := { getAttribute_target : SelectorParams; name : string }.
Record FrameEvaluateExpressionParams := {
  expression : string;
  isFunction : bool;
  arg : JsValue;
}.
Record FrameAddTagParams := { tag_url : option string; tag_content : option string }.
Record FrameEvalOnSelectorParams := {
  evalOnSelector_selector : string;
  evalOnSelector_expression : string;
  evalOnSelector_isFunction : bool;
  evalOnSelector_arg : JsValue;
}.
Record FrameDispatchEventParams := {
  dispatchEvent_target : SelectorParams;
  type : string;
  eventInit : JsValue;
}.
Record FrameWaitForFunctionParams := {
  waitForFunction_options : TimeoutParam;
  waitForFunction_expression : string;
  waitForFunction_isFunction : bool;
  waitForFunction_arg : JsValue;
}.
Record FrameExtendInjectedScriptParams := { source : string; extend_arg : JsValue }.

Record FrameGotoResult := { response : option Dispatcher }.
Record ElementResult := { element : Dispatcher }.
Record NullableElementResult := { nullable_element : option Dispatcher }.
Record ElementsResult := { result_elements : list Dispatcher }.
Record StringResult := { string_value : string }.
Record OptionalStringResult := { optional_value : Field string }.
Record ValueResult := { serialized_value : JsValue }.
Record ValuesResult := { values : list string }.
Record HandleResult := { handle : Dispatcher }.

End channels.

Coercion channels.sel_options : channels.SelectorParams >-> channels.TimeoutParam.
Coercion channels.goto_options : channels.FrameGotoParams >-> channels.TimeoutParam.
Coercion channels.setContent_options : channels.FrameSetContentParams >-> channels.TimeoutParam.
Coercion channels.fill_target : channels.FrameFillParams >-> channels.SelectorParams.
Coercion channels.type_target : channels.FrameTypeParams >-> channels.SelectorParams.
Coercion channels.press_target : channels.FramePressParams >-> channels.SelectorParams.
Coercion channels.selectOption_target : channels.FrameSelectOptionParams >-> channels.SelectorParams.
Coercion channels.setInputFiles_target : channels.FrameSetInputFilesParams >-> channels.SelectorParams.
Coercion channels.getAttribute_target : channels.FrameGetAttributeParams >-> channels.SelectorParams.
Coercion channels.dispatchEvent_target : channels.FrameDispatchEventParams >-> channels.SelectorParams.
Coercion channels.waitForFunction_options : channels.FrameWaitForFunctionParams >-> channels.TimeoutParam.

(** The operations of the underlying frame that the dispatcher awaits.  The
    interactive ones are units of work run under a progress; the others are
    promises that resolve or reject. *)
Record FrameBehaviour := {
  fb_goto : ProgressController -> string -> channels.FrameGotoParams -> Outcome (option nat);
  fb_frameElement : Outcome nat;
  fb_evaluateExpression : string -> bool -> JsValue -> Outcome JsValue;
  fb_waitForSelector : string -> channels.SelectorParams -> Outcome (option nat);
  fb_querySelector : string -> Outcome (option nat);
  fb_querySelectorAll : string -> Outcome (list nat);
  fb_content : Outcome string;
  fb_setContent : ProgressController -> string -> channels.FrameSetContentParams -> Outcome unit;
  fb_addScriptTag : channels.FrameAddTagParams -> Outcome nat;
  fb_addStyleTag : channels.FrameAddTagParams -> Outcome nat;
  fb_click : ProgressController -> string -> channels.SelectorParams -> Work unit;
  fb_dblclick : ProgressController -> string -> channels.SelectorParams -> Work unit;
  fb_fill : ProgressController -> string -> string -> channels.FrameFillParams -> Work unit;
  fb_textContent : string -> channels.SelectorParams -> Outcome (Nullable string);
  fb_getAttribute : string -> string -> channels.FrameGetAttributeParams -> Outcome (Nullable string);
  fb_hover : ProgressController -> string -> channels.SelectorParams -> Work unit;
  fb_selectOption : ProgressController -> string -> list Obj -> list string ->
                    channels.FrameSelectOptionParams -> Work (list string);
  fb_setInputFiles : ProgressController -> string -> list string ->
                     channels.FrameSetInputFilesParams -> Work unit;
  fb_type : ProgressController -> string -> string -> channels.FrameTypeParams -> Work unit;
  fb_press : ProgressController -> string -> string -> channels.FramePressParams -> Work unit;
  fb_check : ProgressController -> string -> channels.SelectorParams -> Work unit;
  fb_uncheck : ProgressController -> string -> channels.SelectorParams -> Work unit;
  fb_title : Outcome string;
  fb_evaluateExpressionHandle : string -> bool -> JsValue -> Outcome JSHandle;
  fb_dispatchEvent : string -> string -> JsValue -> channels.FrameDispatchEventParams ->
                     Outcome unit;
  fb_evalOnSelector : string -> string -> bool -> JsValue -> Outcome JsValue;
  fb_evalOnSelectorAll : string -> string -> bool -> JsValue -> Outcome JsValue;
  fb_focus : string -> channels.SelectorParams -> Outcome unit;
  fb_innerText : string -> channels.SelectorParams -> Outcome string;
  fb_innerHTML : string -> channels.SelectorParams -> Outcome string;
  fb_waitForFunctionExpression : string -> bool -> JsValue ->
                                 channels.FrameWaitForFunctionParams -> Outcome JSHandle;
  fb_extendInjectedScript : string -> JsValue -> Outcome JSHandle;
  (* the value codec of jsHandleDispatcher, taken as two total functions *)
  parseArgument : JsValue -> JsValue;
  serializeResult : JsValue -> JsValue;
}.

(** Modelled from the spec: progress.ts is not among the sources.
    [controller.run(work)] is the [run] of the spec for a controller that is
    already made: the work is invoked under the controller's budget; "if work
    completes before the deadline ... the result is returned", "if the
    deadline elapses first ... the call then fails with a Timeout outcome
    carrying metadata", the controller's. *)
Definition ProgressController_run {A} (controller : ProgressController)
    (task : ProgressController -> Work A) : Outcome A :=
  if w_needs (task controller) <? pc_timeout controller
  then match w_result (task controller) with
       | Done a => Ok a
       | Failed message => Throw (OtherError message)
       end
  else Throw (TimeoutError (pc_metadata controller)).

(** Modelled from the spec: server/frames.ts is not among the sources.
    goto is one of the interactive methods that "call run(work,
    timeoutFromParamsOrDefault, metadata)": the frame's [goto(controller, url,
    options)] runs its navigation work under the controller it is handed. *)
Definition Frame_goto
    (work : ProgressController -> string -> channels.FrameGotoParams -> Work (option nat))
    (controller : ProgressController) (url : string) (options : channels.FrameGotoParams)
    : Outcome (option nat) :=
  ProgressController_run controller (fun progress => work progress url options).

(** Modelled from the spec: server/frames.ts is not among the sources.  As
    [Frame_goto], for [setContent(controller, html, options)]. *)
Definition Frame_setContent
    (work : ProgressController -> string -> channels.FrameSetContentParams -> Work unit)
    (controller : ProgressController) (html : string)
    (options : channels.FrameSetContentParams) : Outcome unit :=
  ProgressController_run controller (fun progress => work progress html options).

(** The frame [E] with the navigation work [g] and [s] behind its goto and
    setContent. *)
Definition with_navigation (E : FrameBehaviour)
    (g : ProgressController -> string -> channels.FrameGotoParams -> Work (option nat))
    (s : ProgressController -> string -> channels.FrameSetContentParams -> Work unit)
    : FrameBehaviour :=
  {| fb_goto := Frame_goto g;
     fb_frameElement := fb_frameElement E;
     fb_evaluateExpression := fb_evaluateExpression E;
     fb_waitForSelector := fb_waitForSelector E;
     fb_querySelector := fb_querySelector E;
     fb_querySelectorAll := fb_querySelectorAll E;
     fb_content := fb_content E;
     fb_setContent := Frame_setContent s;
     fb_addScriptTag := fb_addScriptTag E;
     fb_addStyleTag := fb_addStyleTag E;
     fb_click := fb_click E;
     fb_dblclick := fb_dblclick E;
     fb_fill := fb_fill E;
     fb_textContent := fb_textContent E;
     fb_getAttribute := fb_getAttribute E;
     fb_hover := fb_hover E;
     fb_selectOption := fb_selectOption E;
     fb_setInputFiles := fb_setInputFiles E;
     fb_type := fb_type E;
     fb_press := fb_press E;
     fb_check := fb_check E;
     fb_uncheck := fb_uncheck E;
     fb_title := fb_title E;
     fb_evaluateExpressionHandle := fb_evaluateExpressionHandle E;
     fb_dispatchEvent := fb_dispatchEvent E;
     fb_evalOnSelector := fb_evalOnSelector E;
     fb_evalOnSelectorAll := fb_evalOnSelectorAll E;
     fb_focus := fb_focus E;
     fb_innerText := fb_innerText E;
     fb_innerHTML := fb_innerHTML E;
     fb_waitForFunctionExpression := fb_waitForFunctionExpression E;
     fb_extendInjectedScript := fb_extendInjectedScript E;
     parseArgument := parseArgument E;
     serializeResult := serializeResult E |}.

(** [{ ...base, k1: v1, k2: v2, ... }]: the spread first, then the listed
    properties in order, a later one replacing an earlier one of its name. *)
Definition object_literal (base : JsObject) (props : list (string * JsValue)) : JsObject :=
  foldl (fun o kv => <[kv.1 := kv.2]> o) base props.

(** [...metadata] of an optional argument: nothing when it is undefined. *)
Definition spread (metadata : option JsObject) : JsObject :=
  match metadata with
  | Some m => m
  | None => ∅
  end.

Definition obj_id (o : Obj) : nat :=
  match o with
  | OFrame i | OElementHandle i | OJSHandle i | ORequest i | OResponse i => i
  end.

(** ** dispatchers/frameDispatcher.ts *)
Module FrameDispatcher.

Section Methods.
Variable E : FrameBehaviour.
Variable this : Dispatcher.

(** [this._frame] *)
Definition _frame : nat := obj_id (d_object this).

(** [this._frame._page] *)
Definition _page : M nat := gets (fun st => frame_page (st_frames st _frame)).

Definition _timeoutSettings (page : nat) : M Page := gets (fun st => st_pages st page).

Definition goto (params : channels.FrameGotoParams) (metadata : option JsObject)
    : M channels.FrameGotoResult :=
  page <- _page ;;
  let actionMetadata := object_literal (spread metadata)
        [("type", JStr "goto"); ("value", JStr (channels.url params)); ("page", JPage page)] in
  settings <- _timeoutSettings page ;;
  controller <- new_ProgressController
        (TimeoutSettings.navigationTimeout settings (channels.timeout params)) actionMetadata ;;
  r <- await (fb_goto E controller (channels.url params) params) ;;
  response <- lookupNullableDispatcher (OResponse <$> r) ;;
  ret {| channels.response := response |}.

Definition frameElement : M channels.ElementResult :=
  h <- await (fb_frameElement E) ;;
  d <- ElementHandleDispatcher.new (d_scope this) h ;;
  ret {| channels.element := d |}.

Definition evaluateExpression (params : channels.FrameEvaluateExpressionParams)
    : M channels.ValueResult :=
  v <- await (fb_evaluateExpression E (channels.expression params)
                (channels.isFunction params) (parseArgument E (channels.arg params))) ;;
  ret {| channels.serialized_value := serializeResult E v |}.

Definition evaluateExpressionHandle (params : channels.FrameEvaluateExpressionParams)
    : M channels.HandleResult :=
  h <- await (fb_evaluateExpressionHandle E (channels.expression params)
                (channels.isFunction params) (parseArgument E (channels.arg params))) ;;
  d <- createHandle (d_scope this) h ;;
  ret {| channels.handle := d |}.

Definition waitForSelector (params : channels.SelectorParams)
    : M channels.NullableElementResult :=
  h <- await (fb_waitForSelector E (channels.selector params) params) ;;
  d <- ElementHandleDispatcher.createNullable (d_scope this) h ;;
  ret {| channels.nullable_element := d |}.

Definition dispatchEvent (params : channels.FrameDispatchEventParams) : M unit :=
  await (fb_dispatchEvent E (channels.selector params) (channels.type params)
           (parseArgument E (channels.eventInit params)) params).

Definition evalOnSelector (params : channels.FrameEvalOnSelectorParams)
    : M channels.ValueResult :=
  v <- await (fb_evalOnSelector E (channels.evalOnSelector_selector params)
                (channels.evalOnSelector_expression params)
                (channels.evalOnSelector_isFunction params)
                (parseArgument E (channels.evalOnSelector_arg params))) ;;
  ret {| channels.serialized_value := serializeResult E v |}.

Definition evalOnSelectorAll (params : channels.FrameEvalOnSelectorParams)
    : M channels.ValueResult :=
  v <- await (fb_evalOnSelectorAll E (channels.evalOnSelector_selector params)
                (channels.evalOnSelector_expression params)
                (channels.evalOnSelector_isFunction params)
                (parseArgument E (channels.evalOnSelector_arg params))) ;;
  ret {| channels.serialized_value := serializeResult E v |}.

Definition querySelector (params : channels.SelectorParams)
    : M channels.NullableElementResult :=
  h <- await (fb_querySelector E (channels.selector params)) ;;
  d <- ElementHandleDispatcher.createNullable (d_scope this) h ;;
  ret {| channels.nullable_element := d |}.

Definition querySelectorAll (params : channels.SelectorParams)
    : M channels.ElementsResult :=
  elements <- await (fb_querySelectorAll E (channels.selector params)) ;;
  ds <- mapM (fun e => ElementHandleDispatcher.new (d_scope this) e) elements ;;
  ret {| channels.result_elements := ds |}.

Definition content : M channels.StringResult :=
  v <- await (fb_content E) ;;
  ret {| channels.string_value := v |}.

Definition setContent (params : channels.FrameSetContentParams) (metadata : option JsObject)
    : M unit :=
  page <- _page ;;
  let actionMetadata := object_literal (spread metadata)
        [("type", JStr "setContent"); ("value", JStr (channels.html params)); ("page", JPage page)] in
  settings <- _timeoutSettings page ;;
  controller <- new_ProgressController
        (TimeoutSettings.navigationTimeout settings (channels.timeout params)) actionMetadata ;;
  await (fb_setContent E controller (channels.html params) params).

Definition addScriptTag (params : channels.FrameAddTagParams) : M channels.ElementResult :=
  h <- await (fb_addScriptTag E params) ;;
  d <- ElementHandleDispatcher.new (d_scope this) h ;;
  ret {| channels.element := d |}.

Definition addStyleTag (params : channels.FrameAddTagParams) : M channels.ElementResult :=
  h <- await (fb_addStyleTag E params) ;;
  d <- ElementHandleDispatcher.new (d_scope this) h ;;
  ret {| channels.element := d |}.

Definition click (params : channels.SelectorParams) (metadata : option JsObject) : M unit :=
  page <- _page ;;
  let actionMetadata := object_literal (spread metadata)
        [("type", JStr "click"); ("target", JStr (channels.selector params)); ("page", JPage page)] in
  settings <- _timeoutSettings page ;;
  runAbortableTask (fun progress => fb_click E progress (channels.selector params) params)
    (TimeoutSettings.timeout settings (channels.timeout params)) actionMetadata.

Definition dblclick (params : channels.SelectorParams) (metadata : option JsObject) : M unit :=
  page <- _page ;;
  let actionMetadata := object_literal (spread metadata)
        [("type", JStr "dblclick"); ("target", JStr (channels.selector params)); ("page", JPage page)] in
  settings <- _timeoutSettings page ;;
  runAbortableTask (fun progress => fb_dblclick E progress (channels.selector params) params)
    (TimeoutSettings.timeout settings (channels.timeout params)) actionMetadata.

Definition fill (params : channels.FrameFillParams) (metadata : option JsObject) : M unit :=
  page <- _page ;;
  let actionMetadata := object_literal (spread metadata)
        [("type", JStr "fill"); ("value", JStr (channels.value params));
         ("target", JStr (channels.selector params)); ("page", JPage page)] in
  settings <- _timeoutSettings page ;;
  runAbortableTask
    (fun progress => fb_fill E progress (channels.selector params) (channels.value params) params)
    (TimeoutSettings.timeout settings (channels.timeout params)) actionMetadata.

Definition focus (params : channels.SelectorParams) : M unit :=
  await (fb_focus E (channels.selector params) params).

Definition textContent (params : channels.SelectorParams) : M channels.OptionalStringResult :=
  value <- await (fb_textContent E (channels.selector params) params) ;;
  ret {| channels.optional_value :=
           match value with Null => Absent | NotNull v => Present v end |}.

Definition innerText (params : channels.SelectorParams) : M channels.StringResult :=
  v <- await (fb_innerText E (channels.selector params) params) ;;
  ret {| channels.string_value := v |}.

Definition innerHTML (params : channels.SelectorParams) : M channels.StringResult :=
  v <- await (fb_innerHTML E (channels.selector params) params) ;;
  ret {| channels.string_value := v |}.

Definition getAttribute (params : channels.FrameGetAttributeParams)
    : M channels.OptionalStringResult :=
  value <- await (fb_getAttribute E (channels.selector params) (channels.name params) params) ;;
  ret {| channels.optional_value :=
           match value with Null => Absent | NotNull v => Present v end |}.

Definition hover (params : channels.SelectorParams) (metadata : option JsObject) : M unit :=
  page <- _page ;;
  let actionMetadata := object_literal (spread metadata)
        [("type", JStr "hover"); ("target", JStr (channels.selector params)); ("page", JPage page)] in
  settings <- _timeoutSettings page ;;
  runAbortableTask (fun progress => fb_hover E progress (channels.selector params) params)
    (TimeoutSettings.timeout settings (channels.timeout params)) actionMetadata.

Definition selectOption (params : channels.FrameSelectOptionParams) (metadata : option JsObject)
    : M channels.ValuesResult :=
  page <- _page ;;
  let actionMetadata := object_literal (spread metadata)
        [("type", JStr "selectOption"); ("target", JStr (channels.selector params));
         ("page", JPage page)] in
  settings <- _timeoutSettings page ;;
  runAbortableTask
    (fun progress =>
       let elements := map d_object (default [] (channels.elements params)) in
       let w := fb_selectOption E progress (channels.selector params) elements
                  (default [] (channels.options params)) params in
       {| w_needs := w_needs w;
          w_result := match w_result w with
                      | Done vs => Done {| channels.values := vs |}
                      | Failed e => Failed e
                      end |})
    (TimeoutSettings.timeout settings (channels.timeout params)) actionMetadata.

Definition setInputFiles (params : channels.FrameSetInputFilesParams)
    (metadata : option JsObject) : M unit :=
  page <- _page ;;
  let actionMetadata := object_literal (spread metadata)
        [("type", JStr "setInputFiles"); ("target", JStr (channels.selector params));
         ("page", JPage page)] in
  settings <- _timeoutSettings page ;;
  runAbortableTask
    (fun progress =>
       fb_setInputFiles E progress (channels.selector params) (channels.files params) params)
    (TimeoutSettings.timeout settings (channels.timeout params)) actionMetadata.

Definition type (params : channels.FrameTypeParams) (metadata : option JsObject) : M unit :=
  page <- _page ;;
  let actionMetadata := object_literal (spread metadata)
        [("type", JStr "type"); ("value", JStr (channels.text params));
         ("target", JStr (channels.selector params)); ("page", JPage page)] in
  settings <- _timeoutSettings page ;;
  runAbortableTask
    (fun progress => fb_type E progress (channels.selector params) (channels.text params) params)
    (TimeoutSettings.timeout settings (channels.timeout params)) actionMetadata.

Definition press (params : channels.FramePressParams) (metadata : option JsObject) : M unit :=
  page <- _page ;;
  let actionMetadata := object_literal (spread metadata)
        [("type", JStr "press"); ("value", JStr (channels.key params));
         ("target", JStr (channels.selector params)); ("page", JPage page)] in
  settings <- _timeoutSettings page ;;
  runAbortableTask
    (fun progress => fb_press E progress (channels.selector params) (channels.key params) params)
    (TimeoutSettings.timeout settings (channels.timeout params)) actionMetadata.

Definition check (params : channels.SelectorParams) (metadata : option JsObject) : M unit :=
  page <- _page ;;
  let actionMetadata := object_literal (spread metadata)
        [("type", JStr "check"); ("target", JStr (channels.selector params)); ("page", JPage page)] in
  settings <- _timeoutSettings page ;;
  runAbortableTask (fun progress => fb_check E progress (channels.selector params) params)
    (TimeoutSettings.timeout settings (channels.timeout params)) actionMetadata.

Definition uncheck (params : channels.SelectorParams) (metadata : option JsObject) : M unit :=
  page <- _page ;;
  let actionMetadata := object_literal (spread metadata)
        [("type", JStr "uncheck"); ("target", JStr (channels.selector params)); ("page", JPage page)] in
  settings <- _timeoutSettings page ;;
  runAbortableTask (fun progress => fb_uncheck E progress (channels.selector params) params)
    (TimeoutSettings.timeout settings (channels.timeout params)) actionMetadata.

Definition waitForFunction (params : channels.FrameWaitForFunctionParams)
    : M channels.HandleResult :=
  h <- await (fb_waitForFunctionExpression E (channels.waitForFunction_expression params)
                (channels.waitForFunction_isFunction params)
                (parseArgument E (channels.waitForFunction_arg params)) params) ;;
  d <- createHandle (d_scope this) h ;;
  ret {| channels.handle := d |}.

Definition title : M channels.StringResult :=
  v <- await (fb_title E) ;;
  ret {| channels.string_value := v |}.

Definition extendInjectedScript (params : channels.FrameExtendInjectedScriptParams)
    : M channels.HandleResult :=
  h <- await (fb_extendInjectedScript E (channels.source params)
                (parseArgument E (channels.extend_arg params))) ;;
  d <- createHandle (d_scope this) h ;;
  ret {| channels.handle := d |}.

(** The three listeners the constructor installs on the frame. *)
Definition onAddLifecycle (lifecycleEvent : string) : M unit :=
  _dispatchEvent this "loadstate" (LoadstateAdd lifecycleEvent).

Definition onRemoveLifecycle (lifecycleEvent : string) : M unit :=
  _dispatchEvent this "loadstate" (LoadstateRemove lifecycleEvent).

Definition onNavigation (event : NavigationEvent) : M unit :=
  let params := {| np_url := nav_url event; np_name := nav_name event;
                   np_error := err_message <$> nav_error event;
                   np_newDocument := None |} in
  params <- match nav_newDocument event with
            | Some newDocument =>
                request <- RequestDispatcher.fromNullable (d_scope this) (doc_request newDocument) ;;
                ret {| np_url := np_url params; np_name := np_name params;
                       np_error := np_error params;
                       np_newDocument := Some {| nd_request := request |} |}
            | None => ret params
            end ;;
  _dispatchEvent this "navigated" (Navigated params).

Definition listener (n : FrameNotification) : M unit :=
  match n with
  | AddLifecycle e => onAddLifecycle e
  | RemoveLifecycle e => onRemoveLifecycle e
  | Navigation event => onNavigation event
  end.

End Methods.

(** The private constructor. *)
Definition new (scope : nat) (frame : nat) : M Dispatcher :=
  f <- gets (fun st => st_frames st frame) ;;
  parentFrame <- lookupNullableDispatcher (OFrame <$> frame_parentFrame f) ;;
  this <- new_Dispatcher scope (OFrame frame) "Frame"
            (InitFrame {| init_url := frame_url f;
                          init_name := frame_name f;
                          init_parentFrame := parentFrame;
                          init_loadStates := frame_subtreeLifecycleEvents f |}) ;;
  _ <- modify (add_listener frame this) ;;
  ret this.

Definition from (scope : nat) (frame : nat) : M Dispatcher :=
  result <- existingDispatcher (OFrame frame) ;;
  match result with
  | Some d => ret d
  | None => new scope frame
  end.

End FrameDispatcher.

(** The frame's event emitter: every listener installed on [frame] is
    called, in the order of installation. *)
Definition Frame_emit (frame : nat) (n : FrameNotification) : M unit :=
  ls <- gets st_listeners ;;
  _ <- mapM (fun l : nat * Dispatcher =>
               if Nat.eqb l.1 frame then FrameDispatcher.listener l.2 n else ret tt) ls ;;
  ret tt.

(** ** Requests to a frame dispatcher, and what else happens on a connection *)

(** A request names a method of the channel and carries its params. *)
Inductive Call :=
| CGoto (params : channels.FrameGotoParams) (metadata : option JsObject)
| CFrameElement
| CEvaluateExpression (params : channels.FrameEvaluateExpressionParams)
| CWaitForSelector (params : channels.SelectorParams)
| CQuerySelector (params : channels.SelectorParams)
| CQuerySelectorAll (params : channels.SelectorParams)
| CContent
| CSetContent (params : channels.FrameSetContentParams) (metadata : option JsObject)
| CAddScriptTag (params : channels.FrameAddTagParams)
| CAddStyleTag (params : channels.FrameAddTagParams)
| CClick (params : channels.SelectorParams) (metadata : option JsObject)
| CDblclick (params : channels.SelectorParams) (metadata : option JsObject)
| CFill (params : channels.FrameFillParams) (metadata : option JsObject)
| CTextContent (params : channels.SelectorParams)
| CGetAttribute (params : channels.FrameGetAttributeParams)
| CHover (params : channels.SelectorParams) (metadata : option JsObject)
| CSelectOption (params : channels.FrameSelectOptionParams) (metadata : option JsObject)
| CSetInputFiles (params : channels.FrameSetInputFilesParams) (metadata : option JsObject)
| CType (params : channels.FrameTypeParams) (metadata : option JsObject)
| CPress (params : channels.FramePressParams) (metadata : option JsObject)
| CCheck (params : channels.SelectorParams) (metadata : option JsObject)
| CUncheck (params : channels.SelectorParams) (metadata : option JsObject)
| CTitle
| CEvaluateExpressionHandle (params : channels.FrameEvaluateExpressionParams)
| CDispatchEvent (params : channels.FrameDispatchEventParams)
| CEvalOnSelector (params : channels.FrameEvalOnSelectorParams)
| CEvalOnSelectorAll (params : channels.FrameEvalOnSelectorParams)
| CFocus (params : channels.SelectorParams)
| CInnerText (params : channels.SelectorParams)
| CInnerHTML (params : channels.SelectorParams)
| CWaitForFunction (params : channels.FrameWaitForFunctionParams)
| CExtendInjectedScript (params : channels.FrameExtendInjectedScriptParams).

(** The state a request leaves behind, whatever its outcome. *)
Definition dispatch (E : FrameBehaviour) (this : Dispatcher) (c : Call) (st : State) : State :=
  match c with
  | CGoto p md => (FrameDispatcher.goto E this p md st).2
  | CFrameElement => (FrameDispatcher.frameElement E this st).2
  | CEvaluateExpression p => (FrameDispatcher.evaluateExpression E p st).2
  | CWaitForSelector p => (FrameDispatcher.waitForSelector E this p st).2
  | CQuerySelector p => (FrameDispatcher.querySelector E this p st).2
  | CQuerySelectorAll p => (FrameDispatcher.querySelectorAll E this p st).2
  | CContent => (FrameDispatcher.content E st).2
  | CSetContent p md => (FrameDispatcher.setContent E this p md st).2
  | CAddScriptTag p => (FrameDispatcher.addScriptTag E this p st).2
  | CAddStyleTag p => (FrameDispatcher.addStyleTag E this p st).2
  | CClick p md => (FrameDispatcher.click E this p md st).2
  | CDblclick p md => (FrameDispatcher.dblclick E this p md st).2
  | CFill p md => (FrameDispatcher.fill E this p md st).2
  | CTextContent p => (FrameDispatcher.textContent E p st).2
  | CGetAttribute p => (FrameDispatcher.getAttribute E p st).2
  | CHover p md => (FrameDispatcher.hover E this p md st).2
  | CSelectOption p md => (FrameDispatcher.selectOption E this p md st).2
  | CSetInputFiles p md => (FrameDispatcher.setInputFiles E this p md st).2
  | CType p md => (FrameDispatcher.type E this p md st).2
  | CPress p md => (FrameDispatcher.press E this p md st).2
  | CCheck p md => (FrameDispatcher.check E this p md st).2
  | CUncheck p md => (FrameDispatcher.uncheck E this p md st).2
  | CTitle => (FrameDispatcher.title E st).2
  | CEvaluateExpressionHandle p => (FrameDispatcher.evaluateExpressionHandle E this p st).2
  | CDispatchEvent p => (FrameDispatcher.dispatchEvent E p st).2
  | CEvalOnSelector p => (FrameDispatcher.evalOnSelector E p st).2
  | CEvalOnSelectorAll p => (FrameDispatcher.evalOnSelectorAll E p st).2
  | CFocus p => (FrameDispatcher.focus E p st).2
  | CInnerText p => (FrameDispatcher.innerText E p st).2
  | CInnerHTML p => (FrameDispatcher.innerHTML E p st).2
  | CWaitForFunction p => (FrameDispatcher.waitForFunction E this p st).2
  | CExtendInjectedScript p => (FrameDispatcher.extendInjectedScript E this p st).2
  end.

(** What can happen on a connection: a request to a frame dispatcher, a
    frame being wrapped, a notification of a frame, the browser changing a
    frame (its url, name, lifecycle events). *)
Inductive Op :=
| OpCall (E : FrameBehaviour) (this : Dispatcher) (c : Call)
| OpFrom (scope : nat) (frame : nat)
| OpEmit (frame : nat) (n : FrameNotification)
| OpChange (frame : nat) (f : Frame).

Definition exec (st : State) (op : Op) : State :=
  match op with
  | OpCall E this c => dispatch E this c st
  | OpFrom scope frame => (FrameDispatcher.from scope frame st).2
  | OpEmit frame n => (Frame_emit frame n st).2
  | OpChange frame f => set_frame frame f st
  end.

Definition run (ops : list Op) (st : State) : State := foldl exec st ops.

(** A connection on which nothing has happened yet. *)
Definition initial (frames : nat -> Frame) (pages : nat -> Page) : State :=
  {| st_nextGuid := 0; st_symbol := ∅; st_dispatchers := []; st_listeners := [];
     st_sent := []; st_actions := []; st_frames := frames; st_pages := pages |}.

(** The metadata of the last controller created or task run. *)
Definition handed_metadata (st : State) : option ActionMetadata :=
  match last (st_actions st) with
  | Some (RunAbortableTask _ m) => Some m
  | Some (NewProgressController c) => Some (pc_metadata c)
  | None => None
  end.

(** The create messages sent for a guid. *)
Definition is_create_of (guid : nat) (m : ChannelMessage) : bool :=
  match m with
  | MsgCreate _ _ g _ => Nat.eqb g guid
  | MsgEvent _ _ _ => false
  end.

Definition creates_of (guid : nat) (sent : list ChannelMessage) : list ChannelMessage :=
  List.filter (is_create_of guid) sent.

(** The dispatchers constructed so far that wrap an object. *)
Definition wrappers (o : Obj) (st : State) : list Dispatcher :=
  List.filter (fun d => bool_decide (d_object d = o)) (st_dispatchers st).

(** The value the listed properties of an object literal give to [k], if
    they give one: the last one of that name. *)
Fixpoint prop_of (k : string) (props : list (string * JsValue)) : option JsValue :=
  match props with
  | [] => None
  | (k', v) :: ps =>
      match prop_of k ps with
      | Some v' => Some v'
      | None => if String.eqb k' k then Some v else None
      end
  end.

(** [m], started in [st], hands one task to the runner, with a metadata
    that satisfies [P]; a Timeout outcome of the call carries that metadata. *)
Definition runs_with {A} (m : M A) (st : State) (P : ActionMetadata -> Prop) : Prop :=
  exists t am,
    st_actions (m st).2 = st_actions st ++ [RunAbortableTask t am] /\
    P am /\
    forall m', (m st).1 = Throw (TimeoutError m') -> m' = am.

(** The metadata names the action, its selector and, for some, its text. *)
Definition names (type target : string) (value : option string) (am : ActionMetadata) : Prop :=
  am !! "type" = Some (JStr type) /\
  am !! "target" = Some (JStr target) /\
  match value with
  | Some v => am !! "value" = Some (JStr v)
  | None => True
  end.

(** [m] creates no controller and runs no task, and fails exactly when the
    awaited frame operation [op] does, with the error of [op]. *)
Definition unwrapped {A B} (m : M A) (op : Outcome B) (st : State) : Prop :=
  st_actions (m st).2 = st_actions st /\
  forall e, (m st).1 = Throw e <-> op = Throw e.

(** Whatever the incoming metadata, the metadata [m] hands on has, at each
    key, the value [props] gives it, and the incoming one where [props]
    gives none. *)
Definition builds_metadata {A} (m : option JsObject -> M A) (st : State)
    (props : list (string * JsValue)) : Prop :=
  forall md, exists am,
    handed_metadata (m md st).2 = Some am /\
    forall k, am !! k = match prop_of k props with
                        | Some v => Some v
                        | None => spread md !! k
                        end.

(** ** Steps of the connection state, and what they preserve *)

(** The ways in which the operations above change the state.  The base
    constructor runs for a frame only where no dispatcher wraps it
    ([FrameDispatcher.from]); for handles and requests it runs anywhere. *)
Inductive prim_step : State -> State -> Prop :=
| ps_event g n p st :
    prim_step st (send (MsgEvent g n p) st)
| ps_construct scope o ty init st :
    (forall f, o = OFrame f -> st_symbol st !! o = None) ->
    prim_step st (new_Dispatcher scope o ty init st).2
| ps_listen f d st :
    prim_step st (add_listener f d st)
| ps_log a st :
    prim_step st (log_action a st)
| ps_change frame f st :
    prim_step st (set_frame frame f st).

Definition steps {A} (m : M A) : Prop :=
  forall st, rtc prim_step st (m st).2.

(** Consistency of the registry: guids are below the counter, the symbol
    of an object is a constructed node that wraps it, and a node that wraps
    a frame is the one the frame's symbol names. *)
Record Inv (st : State) : Prop := {
  inv_guid : forall d, d ∈ st_dispatchers st -> (d_guid d < st_nextGuid st)%nat;
  inv_nodup : NoDup (st_dispatchers st);
  inv_symbol : forall o d, st_symbol st !! o = Some d ->
                 d ∈ st_dispatchers st /\ d_object d = o;
  inv_frame : forall d f, d ∈ st_dispatchers st -> d_object d = OFrame f ->
                st_symbol st !! OFrame f = Some d;
  inv_create : forall parent type g i, MsgCreate parent type g i ∈ st_sent st ->
                 (g < st_nextGuid st)%nat;
}.

(** From [st] to [st'] the messages sent were only added to, and the nodes
    created meanwhile have guids from the counter of [st] on. *)
Definition grows (st st' : State) : Prop :=
  (st_nextGuid st <= st_nextGuid st')%nat /\
  exists l, st_sent st' = st_sent st ++ l /\
    forall parent type g i, MsgCreate parent type g i ∈ l ->
      (st_nextGuid st <= g < st_nextGuid st')%nat.

(** The node the ElementHandleDispatcher constructor builds for handle [h]
    when the counter is at [guid]. *)
Definition handle_node (scope guid h : nat) : Dispatcher :=
  {| d_guid := guid; d_type := "ElementHandle"; d_scope := scope;
     d_object := OElementHandle h |}.

Fixpoint handle_nodes (scope guid : nat) (hs : list nat) : list Dispatcher :=
  match hs with
  | [] => []
  | h :: hs' => handle_node scope guid h :: handle_nodes scope (S guid) hs'
  end.

(** [d] wraps handle [h] in the scope of [this] and is registered in [st]:
    it is among the constructed nodes, it is the handle's symbol, and its
    create message was sent. *)
Definition registered (this : Dispatcher) (h : nat) (d : Dispatcher) (st : State) : Prop :=
  d_object d = OElementHandle h /\
  d_scope d = d_scope this /\
  d ∈ st_dispatchers st /\
  st_symbol st !! OElementHandle h = Some d /\
  MsgCreate (d_scope this) "ElementHandle" (d_guid d) InitOther ∈ st_sent st.

(** ** A concrete connection, for the examples *)
Module Example.

Definition mainFrame : Frame :=
  {| frame_url := "https://example.com/"; frame_name := "";
     frame_parentFrame := None;
     frame_subtreeLifecycleEvents := ["domcontentloaded"; "load"];
     frame_page := 0 |}.

Definition childFrame : Frame :=
  {| frame_url := "about:blank"; frame_name := "ad";
     frame_parentFrame := Some 1%nat;
     frame_subtreeLifecycleEvents := [];
     frame_page := 0 |}.

Definition frames (i : nat) : Frame :=
  match i with
  | 2%nat => childFrame
  | _ => mainFrame
  end.

Definition pages (_ : nat) : Page :=
  {| page_defaultTimeout := 30000; page_defaultNavigationTimeout := 60000 |}.

(** The element behind ["#submit"] becomes actionable after 50ms; the page
    has no attribute to report and its selectors match handle 5 (twice) and 6. *)
Definition E : FrameBehaviour :=
  {| fb_goto := fun _ _ _ => Ok None;
     fb_frameElement := Ok 4%nat;
     fb_evaluateExpression := fun _ _ v => Ok v;
     fb_waitForSelector := fun _ _ => Ok (Some 5%nat);
     fb_querySelector := fun s => if String.eqb s "#submit" then Ok (Some 5%nat) else Ok None;
     fb_querySelectorAll := fun _ => Ok [5%nat; 5%nat; 6%nat];
     fb_content := Throw (OtherError "frame was detached");
     fb_setContent := fun _ _ _ => Ok tt;
     fb_addScriptTag := fun _ => Ok 5%nat;
     fb_addStyleTag := fun _ => Ok 5%nat;
     fb_click := fun _ _ _ => {| w_needs := 50; w_result := Done tt |};
     fb_dblclick := fun _ _ _ => {| w_needs := 50; w_result := Done tt |};
     fb_fill := fun _ _ _ _ => {| w_needs := 50; w_result := Done tt |};
     fb_textContent := fun _ _ => Ok Null;
     fb_getAttribute := fun _ n _ => if String.eqb n "id" then Ok (NotNull "submit") else Ok Null;
     fb_hover := fun _ _ _ => {| w_needs := 50; w_result := Done tt |};
     fb_selectOption := fun _ _ _ vs _ => {| w_needs := 50; w_result := Done vs |};
     fb_setInputFiles := fun _ _ _ _ => {| w_needs := 50; w_result := Done tt |};
     fb_type := fun _ _ _ _ => {| w_needs := 50; w_result := Done tt |};
     fb_press := fun _ _ _ _ => {| w_needs := 50; w_result := Done tt |};
     fb_check := fun _ _ _ => {| w_needs := 50; w_result := Done tt |};
     fb_uncheck := fun _ _ _ => {| w_needs := 50; w_result := Done tt |};
     fb_title := Ok "Example Domain";
     fb_evaluateExpressionHandle := fun _ _ _ => Ok {| handle_id := 8; handle_asElement := None |};
     fb_dispatchEvent := fun _ _ _ _ => Ok tt;
     fb_evalOnSelector := fun _ _ _ v => Ok v;
     fb_evalOnSelectorAll := fun _ _ _ v => Ok v;
     fb_focus := fun _ _ => Ok tt;
     fb_innerText := fun _ _ => Ok "Submit";
     fb_innerHTML := fun _ _ => Ok "<b>Submit</b>";
     fb_waitForFunctionExpression :=
       fun _ _ _ _ => Ok {| handle_id := 9; handle_asElement := Some 5%nat |};
     fb_extendInjectedScript := fun _ _ => Ok {| handle_id := 10; handle_asElement := None |};
     parseArgument := fun v => v;
     serializeResult := fun v => v |}.

Definition st0 : State := initial frames pages.

(** The main frame wrapped in scope 0: guid 0. *)
Definition st1 : State := (FrameDispatcher.from 0 1 st0).2.

Definition this : Dispatcher :=
  {| d_guid := 0; d_type := "Frame"; d_scope := 0; d_object := OFrame 1 |}.

Definition submit (timeout : option Z) : channels.SelectorParams :=
  {| channels.sel_options := {| channels.timeout := timeout |};
     channels.selector := "#submit" |}.

Definition missingAttribute : channels.FrameGetAttributeParams :=
  {| channels.getAttribute_target := submit None; channels.name := "disabled" |}.

(** A navigation that began a new document, for request 7. *)
Definition navigation : NavigationEvent :=
  {| nav_url := "https://example.com/next"; nav_name := Some "";
     nav_newDocument := Some {| doc_request := Some 7%nat |};
     nav_error := None |}.

(** A navigation to a new document that no request initiated, and that failed. *)
Definition navigationWithoutRequest : NavigationEvent :=
  {| nav_url := "about:blank"; nav_name := Some "";
     nav_newDocument := Some {| doc_request := None |};
     nav_error := Some {| err_message := "net::ERR_ABORTED" |} |}.

(** A frame that was detached: every operation fails. *)
Definition detached : FrameBehaviour :=
  let gone {A} : Outcome A := Throw (OtherError "frame was detached") in
  let lost {A} : Work A := {| w_needs := 0; w_result := Failed "frame was detached" |} in
  {| fb_goto := fun _ _ _ => gone;
     fb_frameElement := gone;
     fb_evaluateExpression := fun _ _ _ => gone;
     fb_waitForSelector := fun _ _ => gone;
     fb_querySelector := fun _ => gone;
     fb_querySelectorAll := fun _ => gone;
     fb_content := gone;
     fb_setContent := fun _ _ _ => gone;
     fb_addScriptTag := fun _ => gone;
     fb_addStyleTag := fun _ => gone;
     fb_click := fun _ _ _ => lost;
     fb_dblclick := fun _ _ _ => lost;
     fb_fill := fun _ _ _ _ => lost;
     fb_textContent := fun _ _ => gone;
     fb_getAttribute := fun _ _ _ => gone;
     fb_hover := fun _ _ _ => lost;
     fb_selectOption := fun _ _ _ _ _ => lost;
     fb_setInputFiles := fun _ _ _ _ => lost;
     fb_type := fun _ _ _ _ => lost;
     fb_press := fun _ _ _ _ => lost;
     fb_check := fun _ _ _ => lost;
     fb_uncheck := fun _ _ _ => lost;
     fb_title := gone;
     fb_evaluateExpressionHandle := fun _ _ _ => gone;
     fb_dispatchEvent := fun _ _ _ _ => gone;
     fb_evalOnSelector := fun _ _ _ _ => gone;
     fb_evalOnSelectorAll := fun _ _ _ _ => gone;
     fb_focus := fun _ _ => gone;
     fb_innerText := fun _ _ => gone;
     fb_innerHTML := fun _ _ => gone;
     fb_waitForFunctionExpression := fun _ _ _ _ => gone;
     fb_extendInjectedScript := fun _ _ => gone;
     parseArgument := fun v => v;
     serializeResult := fun v => v |}.

(** The example page, with navigations that commit after 50ms. *)
Definition navigating : FrameBehaviour :=
  with_navigation E
    (fun _ _ _ => {| w_needs := 50; w_result := Done None |})
    (fun _ _ _ => {| w_needs := 50; w_result := Done tt |}).

Definition next (timeout : option Z) : channels.FrameGotoParams :=
  {| channels.goto_options := {| channels.timeout := timeout |};
     channels.url := "https://example.com/next" |}.

End Example.

(** ** Requests and listeners, step by step *)

(** The steps of a request ([events = false]) and of a listener
    ([events = true]): a node constructed for an object that is not a frame,
    a controller or task recorded and, for a listener only, an event sent. *)
Inductive quiet_step (events : bool) : State -> State -> Prop :=
| qs_construct scope o ty init st :
    (forall f, o <> OFrame f) ->
    quiet_step events st (new_Dispatcher scope o ty init st).2
| qs_log a st :
    quiet_step events st (log_action a st)
| qs_event g n p st :
    events = true ->
    quiet_step events st (send (MsgEvent g n p) st).

Definition quiet (events : bool) {A} (m : M A) : Prop :=
  forall st, rtc (quiet_step events) st (m st).2.

Definition is_create (m : ChannelMessage) : bool :=
  match m with
  | MsgCreate _ _ _ _ => true
  | MsgEvent _ _ _ => false
  end.

(** [m] leaves the state as it is, and fails exactly when the awaited
    frame operation [op] does, with the error of [op]. *)
Definition reads {A B} (m : M A) (op : Outcome B) : Prop :=
  forall st, (m st).2 = st /\ forall e, (m st).1 = Throw e <-> op = Throw e.

(** When the awaited frame operation [op] fails, so does [m], with the same
    error and the state as it was. *)
Definition fails_clean {A B} (m : M A) (op : Outcome B) : Prop :=
  forall st e, op = Throw e -> m st = (Throw e, st).

(** All that [m] does to the state is to record one controller or task. *)
Definition only_logs {A} (m : M A) : Prop :=
  forall st, exists a, (m st).2 = log_action a st.

(** The metadata [m] hands on has the keys of the incoming metadata and the
    keys [keys], and no others. *)
Definition metadata_keys {A} (m : option JsObject -> M A) (keys : list string) : Prop :=
  forall md st, exists am,
    handed_metadata (m md st).2 = Some am /\
    dom am = dom (spread md) ∪ list_to_set keys.

(** The budget of the controller or task [m] creates is the timeout
    ([navigation]: the navigation timeout) that the settings of the frame's
    page give for [param], and that page is the [page] of the metadata. *)
Definition budget_of_page {A} (this : Dispatcher) (m : M A) (navigation : bool)
    (param : option Z) : Prop :=
  forall st,
    let page := frame_page (st_frames st (FrameDispatcher._frame this)) in
    exists t am,
      last (st_actions (m st).2)
        = Some (if navigation
                then NewProgressController {| pc_timeout := t; pc_metadata := am |}
                else RunAbortableTask t am) /\
      am !! "page" = Some (JPage page) /\
      t = (if navigation then TimeoutSettings.navigationTimeout else TimeoutSettings.timeout)
            (st_pages st page) param.

(** Every frame that has a dispatcher has that dispatcher as its one
    listener; a frame without a dispatcher has no listener. *)
Definition Subscribed (st : State) : Prop :=
  forall f,
    List.filter (fun l : nat * Dispatcher => Nat.eqb l.1 f) (st_listeners st)
    = match st_symbol st !! OFrame f with
      | Some d => [(f, d)]
      | None => []
      end.

Definition event_name (n : FrameNotification) : string :=
  match n with
  | AddLifecycle _ | RemoveLifecycle _ => "loadstate"
  | Navigation _ => "navigated"
  end.

(** The events among some messages: whose node, which name. *)
Definition event_heads (l : list ChannelMessage) : list (nat * string) :=
  omap (fun m => match m with
                 | MsgEvent g n _ => Some (g, n)
                 | MsgCreate _ _ _ _ => None
                 end) l.

Definition is_lifecycle (n : FrameNotification) : bool :=
  match n with
  | AddLifecycle _ | RemoveLifecycle _ => true
  | Navigation _ => false
  end.

(** The event of a lifecycle notification. *)
Definition loadstate_event (this : Dispatcher) (n : FrameNotification) : option ChannelMessage :=
  match n with
  | AddLifecycle e => Some (MsgEvent (d_guid this) "loadstate" (LoadstateAdd e))
  | RemoveLifecycle e => Some (MsgEvent (d_guid this) "loadstate" (LoadstateRemove e))
  | Navigation _ => None
  end.

(** A create message for [g] is among [l]. *)
Definition created (g : nat) (l : list ChannelMessage) : Prop :=
  exists parent type i, MsgCreate parent type g i ∈ l.

(** The dispatchers the params of an event refer to. *)
Definition references (p : EventParams) : list Dispatcher :=
  match p with
  | Navigated np =>
      match np_newDocument np with
      | Some nd => match nd_request nd with Some d => [d] | None => [] end
      | None => []
      end
  | LoadstateAdd _ | LoadstateRemove _ => []
  end.

(** Before every event, the create message of its node and of every node
    its params refer to has been sent. *)
Definition create_first (l : list ChannelMessage) : Prop :=
  forall i g n p, l !! i = Some (MsgEvent g n p) ->
    created g (take i l) /\
    forall d, d ∈ references p -> created (d_guid d) (take i l).

Record Ordered (st : State) : Prop := {
  ord_listeners : forall f d, (f, d) ∈ st_listeners st -> created (d_guid d) (st_sent st);
  ord_symbol : forall o d, st_symbol st !! o = Some d -> created (d_guid d) (st_sent st);
  ord_sent : create_first (st_sent st);
}.

(** The create message the ElementHandleDispatcher constructor sends for a node. *)
Definition create_of (d : Dispatcher) : ChannelMessage :=
  MsgCreate (d_scope d) "ElementHandle" (d_guid d) InitOther.

(** * Properties *)

(** ** Object literals *)

Lemma lookup_object_literal (base : JsObject) props k :
  object_literal base props !! k =
  match prop_of k props with
  | Some v => Some v
  | None => base !! k
  end.
Proof.
  revert base. induction props as [|[k' v] ps IH]; intros base; [reflexivity|].
  change (object_literal base ((k', v) :: ps)) with (object_literal (<[k':=v]> base) ps).
  rewrite IH. simpl. destruct (prop_of k ps); [reflexivity|].
  destruct (String.eqb_spec k' k) as [->|Hne].
  - apply lookup_insert_eq.
  - by apply lookup_insert_ne.
Qed.

(** ** The runner *)

Lemma runAbortableTask_state {A} (task : ProgressController -> Work A) t am st :
  (runAbortableTask task t am st).2 = log_action (RunAbortableTask t am) st.
Proof.
  unfold runAbortableTask. destruct (_ <? _); [|reflexivity].
  by destruct (w_result _).
Qed.

Lemma runAbortableTask_timeout {A} (task : ProgressController -> Work A) t am st m' :
  (runAbortableTask task t am st).1 = Throw (TimeoutError m') -> m' = am.
Proof.
  unfold runAbortableTask. destruct (_ <? _).
  - destruct (w_result _); simpl; congruence.
  - simpl. congruence.
Qed.

Lemma runAbortableTask_expired {A} (task : ProgressController -> Work A) t am st :
  t <= w_needs (task {| pc_timeout := t; pc_metadata := am |}) ->
  (runAbortableTask task t am st).1 = Throw (TimeoutError am).
Proof.
  intros H. unfold runAbortableTask.
  destruct (Z.ltb_spec (w_needs (task {| pc_timeout := t; pc_metadata := am |})) t); [lia|].
  reflexivity.
Qed.

Lemma runs_with_runAbortableTask {A} (task : ProgressController -> Work A) t am st
    (P : ActionMetadata -> Prop) :
  P am -> runs_with (runAbortableTask task t am) st P.
Proof.
  intros HP. exists t, am. split; [|split]; [|exact HP|].
  - by rewrite runAbortableTask_state.
  - apply runAbortableTask_timeout.
Qed.

Lemma names_object_literal base props type target value :
  prop_of "type" props = Some (JStr type) ->
  prop_of "target" props = Some (JStr target) ->
  match value with
  | Some v => prop_of "value" props = Some (JStr v)
  | None => True
  end ->
  names type target value (object_literal base props).
Proof.
  intros Ht Hs Hv. unfold names. rewrite !lookup_object_literal, Ht, Hs.
  split; [reflexivity|]. split; [reflexivity|].
  destruct value; [|exact I]. by rewrite Hv.
Qed.

Ltac interactive :=
  unfold FrameDispatcher.click, FrameDispatcher.dblclick, FrameDispatcher.fill,
    FrameDispatcher.hover, FrameDispatcher.type, FrameDispatcher.press,
    FrameDispatcher.check, FrameDispatcher.uncheck, FrameDispatcher.selectOption,
    FrameDispatcher.setInputFiles, FrameDispatcher._page, FrameDispatcher._timeoutSettings,
    bind, gets; cbn beta iota.

(** C5. Each selector-based interactive method hands the runner a metadata
    whose [type] is the method's name and whose [target] is
    [params.selector] (for fill, type and press its [value] is the text or
    key), and a Timeout outcome of the call carries that metadata. *)
Theorem interactive_metadata_names_action E this md st :
  (forall p, runs_with (FrameDispatcher.click E this p md) st
               (names "click" (channels.selector p) None)) /\
  (forall p, runs_with (FrameDispatcher.dblclick E this p md) st
               (names "dblclick" (channels.selector p) None)) /\
  (forall p, runs_with (FrameDispatcher.fill E this p md) st
               (names "fill" (channels.selector p) (Some (channels.value p)))) /\
  (forall p, runs_with (FrameDispatcher.hover E this p md) st
               (names "hover" (channels.selector p) None)) /\
  (forall p, runs_with (FrameDispatcher.type E this p md) st
               (names "type" (channels.selector p) (Some (channels.text p)))) /\
  (forall p, runs_with (FrameDispatcher.press E this p md) st
               (names "press" (channels.selector p) (Some (channels.key p)))) /\
  (forall p, runs_with (FrameDispatcher.check E this p md) st
               (names "check" (channels.selector p) None)) /\
  (forall p, runs_with (FrameDispatcher.uncheck E this p md) st
               (names "uncheck" (channels.selector p) None)) /\
  (forall p, runs_with (FrameDispatcher.selectOption E this p md) st
               (names "selectOption" (channels.selector p) None)) /\
  (forall p, runs_with (FrameDispatcher.setInputFiles E this p md) st
               (names "setInputFiles" (channels.selector p) None)).
Proof.
  repeat split; intros p; interactive;
    apply runs_with_runAbortableTask, names_object_literal; try reflexivity; exact I.
Qed.

(** The timed-out click of the end-to-end example: budget 10ms, the element
    actionable after 50ms. *)
Lemma interactive_metadata_names_action_witness :
  exists m,
    (FrameDispatcher.click Example.E Example.this (Example.submit (Some 10)) None
       Example.st1).1 = Throw (TimeoutError m) /\
    m !! "type" = Some (JStr "click") /\
    m !! "target" = Some (JStr "#submit").
Proof.
  destruct (proj1 (interactive_metadata_names_action Example.E Example.this None Example.st1)
              (Example.submit (Some 10))) as (t & am & _ & (Ht & Hs & _) & Hto).
  exists am. split; [|split; assumption].
  assert (Hrun : (FrameDispatcher.click Example.E Example.this (Example.submit (Some 10))
                    None Example.st1).1
                 = Throw (TimeoutError (object_literal ∅
                     [("type", JStr "click"); ("target", JStr "#submit"); ("page", JPage 0)])))
    by reflexivity.
  rewrite <- (Hto _ Hrun). exact Hrun.
Defined.

(** ** Results with an optional value *)

(** C3. When the frame returns null, the [value] field of the result of
    getAttribute and of textContent is absent, never a present null; when it
    returns a string, the field holds that string. *)
Theorem null_result_is_absent_field E (pa : channels.FrameGetAttributeParams)
    (pt : channels.SelectorParams) st :
  (fb_getAttribute E (channels.selector pa) (channels.name pa) pa = Ok Null ->
   (FrameDispatcher.getAttribute E pa st).1 = Ok {| channels.optional_value := Absent |}) /\
  (forall s, fb_getAttribute E (channels.selector pa) (channels.name pa) pa = Ok (NotNull s) ->
   (FrameDispatcher.getAttribute E pa st).1 = Ok {| channels.optional_value := Present s |}) /\
  (forall r, (FrameDispatcher.getAttribute E pa st).1 = Ok r ->
   channels.optional_value r <> PresentNull) /\
  (fb_textContent E (channels.selector pt) pt = Ok Null ->
   (FrameDispatcher.textContent E pt st).1 = Ok {| channels.optional_value := Absent |}) /\
  (forall s, fb_textContent E (channels.selector pt) pt = Ok (NotNull s) ->
   (FrameDispatcher.textContent E pt st).1 = Ok {| channels.optional_value := Present s |}) /\
  (forall r, (FrameDispatcher.textContent E pt st).1 = Ok r ->
   channels.optional_value r <> PresentNull).
Proof.
  unfold FrameDispatcher.getAttribute, FrameDispatcher.textContent, bind, await, ret.
  repeat split.
  - intros ->. reflexivity.
  - intros s ->. reflexivity.
  - intros r. destruct (fb_getAttribute _ _ _ _) as [[|v]|e]; simpl; intros H;
      inversion H; subst; simpl; discriminate.
  - intros ->. reflexivity.
  - intros s ->. reflexivity.
  - intros r. destruct (fb_textContent _ _ _) as [[|v]|e]; simpl; intros H;
      inversion H; subst; simpl; discriminate.
Qed.

(** getAttribute for a missing attribute. *)
Lemma null_result_is_absent_field_witness :
  (FrameDispatcher.getAttribute Example.E Example.missingAttribute Example.st1).1
  = Ok {| channels.optional_value := Absent |}.
Proof.
  apply (proj1 (null_result_is_absent_field Example.E Example.missingAttribute
                  (Example.submit None) Example.st1)).
  reflexivity.
Defined.

(** ** Methods outside the runner *)

Lemma unwrapped_await_ret {A B} (op : Outcome A) (f : A -> B) st :
  unwrapped (bind (await op) (fun a => ret (f a))) op st.
Proof.
  unfold unwrapped, bind, await, ret. destruct op as [a|e]; simpl.
  - split; [reflexivity|]. intros e. split; discriminate.
  - split; [reflexivity|]. intros e'. split; intros [= ->]; reflexivity.
Qed.

(** C6. content, title, querySelector and evaluateExpression create no
    controller and no metadata and run no task; they fail exactly when the
    frame operation fails, with its error. *)
Theorem non_interactive_methods_unwrapped E this st :
  unwrapped (FrameDispatcher.content E) (fb_content E) st /\
  unwrapped (FrameDispatcher.title E) (fb_title E) st /\
  (forall p, unwrapped (FrameDispatcher.querySelector E this p)
               (fb_querySelector E (channels.selector p)) st) /\
  (forall p, unwrapped (FrameDispatcher.evaluateExpression E p)
               (fb_evaluateExpression E (channels.expression p) (channels.isFunction p)
                  (parseArgument E (channels.arg p))) st).
Proof.
  split; [apply unwrapped_await_ret|]. split; [apply unwrapped_await_ret|].
  split; [|intros p; apply unwrapped_await_ret].
  intros p. unfold unwrapped, FrameDispatcher.querySelector, bind, await.
  destruct (fb_querySelector E (channels.selector p)) as [[h|]|e]; simpl.
  - split; [reflexivity|]. intros e. split; discriminate.
  - split; [reflexivity|]. intros e. split; discriminate.
  - split; [reflexivity|]. intros e'. split; intros [= ->]; reflexivity.
Qed.

(** content on a detached frame: the frame's error reaches the caller. *)
Lemma non_interactive_methods_unwrapped_witness :
  (FrameDispatcher.content Example.E Example.st1).1 = Throw (OtherError "frame was detached") /\
  st_actions (FrameDispatcher.content Example.E Example.st1).2 = st_actions Example.st1.
Proof.
  destruct (proj1 (non_interactive_methods_unwrapped Example.E Example.this Example.st1))
    as [Hact Herr].
  split; [|exact Hact]. apply Herr. reflexivity.
Defined.

(** ** The metadata of an action *)

Lemma handed_metadata_run t am st :
  handed_metadata (log_action (RunAbortableTask t am) st) = Some am.
Proof. unfold handed_metadata, log_action; simpl. by rewrite last_snoc. Qed.

Lemma handed_metadata_controller c st :
  handed_metadata (log_action (NewProgressController c) st) = Some (pc_metadata c).
Proof. unfold handed_metadata, log_action; simpl. by rewrite last_snoc. Qed.

Lemma goto_state E this p md st :
  (FrameDispatcher.goto E this p md st).2 =
  log_action (NewProgressController
    {| pc_timeout := TimeoutSettings.navigationTimeout
                       (st_pages st (frame_page (st_frames st (FrameDispatcher._frame this))))
                       (channels.timeout p);
       pc_metadata := object_literal (spread md)
         [("type", JStr "goto"); ("value", JStr (channels.url p));
          ("page", JPage (frame_page (st_frames st (FrameDispatcher._frame this))))] |}) st.
Proof.
  unfold FrameDispatcher.goto, FrameDispatcher._page, FrameDispatcher._timeoutSettings,
    new_ProgressController, bind, gets, await; cbn beta iota.
  destruct (fb_goto E _ _ _) as [[r|]|e]; reflexivity.
Qed.

Lemma setContent_state E this p md st :
  (FrameDispatcher.setContent E this p md st).2 =
  log_action (NewProgressController
    {| pc_timeout := TimeoutSettings.navigationTimeout
                       (st_pages st (frame_page (st_frames st (FrameDispatcher._frame this))))
                       (channels.timeout p);
       pc_metadata := object_literal (spread md)
         [("type", JStr "setContent"); ("value", JStr (channels.html p));
          ("page", JPage (frame_page (st_frames st (FrameDispatcher._frame this))))] |}) st.
Proof. reflexivity. Qed.

Lemma builds_metadata_run {A} (task : ProgressController -> Work A) t base props k st :
  exists am,
    handed_metadata (runAbortableTask task t (object_literal base props) st).2 = Some am /\
    am !! k = match prop_of k props with
              | Some v => Some v
              | None => base !! k
              end.
Proof.
  exists (object_literal base props). rewrite runAbortableTask_state, handed_metadata_run.
  split; [reflexivity|]. apply lookup_object_literal.
Qed.

(** C9, as the code has it.  Of the incoming metadata, an interactive
    method replaces the keys its object literal lists after the spread:
    [type] and [page] always, [target] in the selector-based methods, [value]
    in goto, setContent, fill, type and press.  Every other key reaches the
    runner as the caller sent it ([value] in click, dblclick, hover,
    selectOption, setInputFiles, check and uncheck; [target] in goto and
    setContent). *)
Theorem metadata_overrides_listed_keys E this st :
  let page := JPage (frame_page (st_frames st (FrameDispatcher._frame this))) in
  (forall p, builds_metadata (FrameDispatcher.goto E this p) st
     [("type", JStr "goto"); ("value", JStr (channels.url p)); ("page", page)]) /\
  (forall p, builds_metadata (FrameDispatcher.setContent E this p) st
     [("type", JStr "setContent"); ("value", JStr (channels.html p)); ("page", page)]) /\
  (forall p, builds_metadata (FrameDispatcher.click E this p) st
     [("type", JStr "click"); ("target", JStr (channels.selector p)); ("page", page)]) /\
  (forall p, builds_metadata (FrameDispatcher.dblclick E this p) st
     [("type", JStr "dblclick"); ("target", JStr (channels.selector p)); ("page", page)]) /\
  (forall p, builds_metadata (FrameDispatcher.fill E this p) st
     [("type", JStr "fill"); ("value", JStr (channels.value p));
      ("target", JStr (channels.selector p)); ("page", page)]) /\
  (forall p, builds_metadata (FrameDispatcher.hover E this p) st
     [("type", JStr "hover"); ("target", JStr (channels.selector p)); ("page", page)]) /\
  (forall p, builds_metadata (FrameDispatcher.selectOption E this p) st
     [("type", JStr "selectOption"); ("target", JStr (channels.selector p)); ("page", page)]) /\
  (forall p, builds_metadata (FrameDispatcher.setInputFiles E this p) st
     [("type", JStr "setInputFiles"); ("target", JStr (channels.selector p)); ("page", page)]) /\
  (forall p, builds_metadata (FrameDispatcher.type E this p) st
     [("type", JStr "type"); ("value", JStr (channels.text p));
      ("target", JStr (channels.selector p)); ("page", page)]) /\
  (forall p, builds_metadata (FrameDispatcher.press E this p) st
     [("type", JStr "press"); ("value", JStr (channels.key p));
      ("target", JStr (channels.selector p)); ("page", page)]) /\
  (forall p, builds_metadata (FrameDispatcher.check E this p) st
     [("type", JStr "check"); ("target", JStr (channels.selector p)); ("page", page)]) /\
  (forall p, builds_metadata (FrameDispatcher.uncheck E this p) st
     [("type", JStr "uncheck"); ("target", JStr (channels.selector p)); ("page", page)]).
Proof.
  intros page.
  split.
  { intros p md. rewrite goto_state, handed_metadata_controller.
    eexists; split; [reflexivity|]. intros k. apply lookup_object_literal. }
  split.
  { intros p md. rewrite setContent_state, handed_metadata_controller.
    eexists; split; [reflexivity|]. intros k. apply lookup_object_literal. }
  repeat split; intros p md; interactive;
    rewrite runAbortableTask_state, handed_metadata_run;
    (eexists; split; [reflexivity|]; intros k; apply lookup_object_literal).
Qed.

(** C9 as stated fails: two clicks that differ only in the [value] key of
    the incoming metadata hand the runner metadata with different values. *)
Lemma caller_value_reaches_runner :
  let call md := handed_metadata
        (FrameDispatcher.click Example.E Example.this (Example.submit None) (Some md)
           Example.st1).2 in
  (forall k, k <> "value" ->
     ({["value" := JStr "x"]} : JsObject) !! k = ({["value" := JStr "y"]} : JsObject) !! k) /\
  (call {["value" := JStr "x"]} ≫= lookup "value") = Some (JStr "x") /\
  (call {["value" := JStr "y"]} ≫= lookup "value") = Some (JStr "y") /\
  (call {["value" := JStr "x"]} ≫= lookup "value")
    <> (call {["value" := JStr "y"]} ≫= lookup "value").
Proof.
  split; [|split; [|split]].
  - intros k Hk. by rewrite !lookup_singleton_ne.
  - vm_compute. reflexivity.
  - vm_compute. reflexivity.
  - vm_compute. discriminate.
Qed.

(** ** goto and setContent *)

Lemma runAbortableTask_outcome {A} (task : ProgressController -> Work A) t am st :
  (runAbortableTask task t am st).1
  = ProgressController_run {| pc_timeout := t; pc_metadata := am |} task.
Proof.
  unfold runAbortableTask, ProgressController_run; simpl.
  destruct (_ <? _); [|reflexivity]. by destruct (w_result _).
Qed.

Lemma goto_outcome E this p md st e :
  (FrameDispatcher.goto E this p md st).1 = Throw e <->
  fb_goto E
    {| pc_timeout := TimeoutSettings.navigationTimeout
                       (st_pages st (frame_page (st_frames st (FrameDispatcher._frame this))))
                       (channels.timeout p);
       pc_metadata := object_literal (spread md)
         [("type", JStr "goto"); ("value", JStr (channels.url p));
          ("page", JPage (frame_page (st_frames st (FrameDispatcher._frame this))))] |}
    (channels.url p) p = Throw e.
Proof.
  unfold FrameDispatcher.goto, FrameDispatcher._page, FrameDispatcher._timeoutSettings,
    new_ProgressController, bind, gets, await; cbn beta iota.
  destruct (fb_goto E _ _ _) as [[r|]|e']; simpl; split; try discriminate;
    intros [= ->]; reflexivity.
Qed.

(** C2.  goto and setContent build the ActionMetadata from the method name
    and the params (type, value = url or html, page) and a controller from
    the navigation budget and that metadata: the per-call timeout if there is
    one, else the page's default navigation timeout, the page's settings
    staying as they were.  With the frame's goto and setContent running their
    work under the controller they are handed, the call has the outcome of
    run(work, budget, metadata): goto fails exactly when that run fails, with
    its error (a Timeout carrying the metadata), and setContent's outcome is
    that of the run. *)
Theorem goto_setContent_run_under_navigation_budget E this md st gotoWork setContentWork :
  fb_goto E = Frame_goto gotoWork ->
  fb_setContent E = Frame_setContent setContentWork ->
  let page := frame_page (st_frames st (FrameDispatcher._frame this)) in
  let budget (timeout : option Z) :=
    match timeout with
    | Some t => t
    | None => page_defaultNavigationTimeout (st_pages st page)
    end in
  (forall p : channels.FrameGotoParams, exists am,
     am !! "type" = Some (JStr "goto") /\
     am !! "value" = Some (JStr (channels.url p)) /\
     am !! "page" = Some (JPage page) /\
     st_actions (FrameDispatcher.goto E this p md st).2
       = st_actions st ++ [NewProgressController
                             {| pc_timeout := budget (channels.timeout p);
                                pc_metadata := am |}] /\
     st_pages (FrameDispatcher.goto E this p md st).2 = st_pages st /\
     forall e,
       (FrameDispatcher.goto E this p md st).1 = Throw e <->
       (runAbortableTask (fun progress => gotoWork progress (channels.url p) p)
          (budget (channels.timeout p)) am st).1 = Throw e) /\
  (forall p : channels.FrameSetContentParams, exists am,
     am !! "type" = Some (JStr "setContent") /\
     am !! "value" = Some (JStr (channels.html p)) /\
     am !! "page" = Some (JPage page) /\
     st_actions (FrameDispatcher.setContent E this p md st).2
       = st_actions st ++ [NewProgressController
                             {| pc_timeout := budget (channels.timeout p);
                                pc_metadata := am |}] /\
     st_pages (FrameDispatcher.setContent E this p md st).2 = st_pages st /\
     (FrameDispatcher.setContent E this p md st).1
       = (runAbortableTask (fun progress => setContentWork progress (channels.html p) p)
            (budget (channels.timeout p)) am st).1).
Proof.
  intros Hgoto HsetContent page budget. split; intros p.
  - exists (object_literal (spread md)
              [("type", JStr "goto"); ("value", JStr (channels.url p)); ("page", JPage page)]).
    rewrite goto_state, !lookup_object_literal.
    repeat (split; [reflexivity|]).
    intros e. rewrite goto_outcome, Hgoto, runAbortableTask_outcome. reflexivity.
  - exists (object_literal (spread md)
              [("type", JStr "setContent"); ("value", JStr (channels.html p));
               ("page", JPage page)]).
    rewrite setContent_state, !lookup_object_literal.
    repeat (split; [reflexivity|]).
    rewrite runAbortableTask_outcome.
    change ((FrameDispatcher.setContent E this p md st).1)
      with (fb_setContent E
              {| pc_timeout := TimeoutSettings.navigationTimeout (st_pages st page)
                                 (channels.timeout p);
                 pc_metadata := object_literal (spread md)
                   [("type", JStr "setContent"); ("value", JStr (channels.html p));
                    ("page", JPage page)] |} (channels.html p) p).
    rewrite HsetContent. reflexivity.
Qed.

(** A goto with a budget of 10ms on a page whose navigation commits after
    50ms: a Timeout that carries the goto metadata. *)
Lemma goto_setContent_run_under_navigation_budget_witness :
  exists am,
    am !! "type" = Some (JStr "goto") /\
    am !! "value" = Some (JStr "https://example.com/next") /\
    (FrameDispatcher.goto Example.navigating Example.this (Example.next (Some 10)) None
       Example.st1).1 = Throw (TimeoutError am).
Proof.
  destruct (proj1 (goto_setContent_run_under_navigation_budget Example.navigating
                     Example.this None Example.st1 _ _ eq_refl eq_refl)
              (Example.next (Some 10))) as (am & Ht & Hv & _ & _ & _ & Hrun).
  exists am. split; [exact Ht|]. split; [exact Hv|].
  apply Hrun. apply runAbortableTask_expired. simpl. lia.
Defined.

(** ** Steps *)

Lemma steps_ret {A} (a : A) : steps (ret a).
Proof. intros st. apply rtc_refl. Qed.

Lemma steps_gets {A} (f : State -> A) : steps (gets f).
Proof. intros st. apply rtc_refl. Qed.

Lemma steps_await {A} (p : Outcome A) : steps (await p).
Proof. intros st. apply rtc_refl. Qed.

Lemma steps_bind {A B} (m : M A) (k : A -> M B) :
  steps m -> (forall a, steps (k a)) -> steps (bind m k).
Proof.
  intros Hm Hk st. unfold bind. specialize (Hm st).
  destruct (m st) as [[a|e] st']; simpl in *; [|exact Hm].
  etrans; [exact Hm|apply Hk].
Qed.

Lemma steps_mapM {A B} (f : A -> M B) l :
  (forall a, steps (f a)) -> steps (mapM f l).
Proof.
  intros Hf. induction l as [|a l IH]; simpl.
  - apply steps_ret.
  - apply steps_bind; [apply Hf|]. intros b.
    apply steps_bind; [apply IH|]. intros bs. apply steps_ret.
Qed.

Lemma steps_existingDispatcher o : steps (existingDispatcher o).
Proof. apply steps_gets. Qed.

Lemma steps_lookupNullableDispatcher o : steps (lookupNullableDispatcher o).
Proof. destruct o; [apply steps_gets|apply steps_ret]. Qed.

Lemma steps_new_Dispatcher scope o ty init :
  (forall f, o <> OFrame f) -> steps (new_Dispatcher scope o ty init).
Proof.
  intros Ho st. apply rtc_once, ps_construct. intros f Hf. by destruct (Ho f).
Qed.

Lemma steps_dispatchEvent this n p : steps (_dispatchEvent this n p).
Proof. intros st. apply rtc_once, ps_event. Qed.

Lemma steps_new_ProgressController t am : steps (new_ProgressController t am).
Proof. intros st. apply rtc_once, ps_log. Qed.

Lemma steps_runAbortableTask {A} (task : ProgressController -> Work A) t am :
  steps (runAbortableTask task t am).
Proof. intros st. rewrite runAbortableTask_state. apply rtc_once, ps_log. Qed.

Lemma steps_ElementHandleDispatcher_new scope h : steps (ElementHandleDispatcher.new scope h).
Proof. apply steps_new_Dispatcher. discriminate. Qed.

Lemma steps_createNullable scope h : steps (ElementHandleDispatcher.createNullable scope h).
Proof.
  destruct h; simpl; [|apply steps_ret].
  apply steps_bind; [apply steps_ElementHandleDispatcher_new|]. intros; apply steps_ret.
Qed.

Lemma steps_RequestDispatcher_from scope r : steps (RequestDispatcher.from scope r).
Proof.
  apply steps_bind; [apply steps_existingDispatcher|]. intros [d|].
  - apply steps_ret.
  - apply steps_new_Dispatcher. discriminate.
Qed.

Lemma steps_fromNullable scope r : steps (RequestDispatcher.fromNullable scope r).
Proof.
  destruct r; simpl; [|apply steps_ret].
  apply steps_bind; [apply steps_RequestDispatcher_from|]. intros; apply steps_ret.
Qed.

Lemma steps_createHandle scope h : steps (createHandle scope h).
Proof.
  unfold createHandle. destruct (handle_asElement h).
  - apply steps_ElementHandleDispatcher_new.
  - apply steps_new_Dispatcher. discriminate.
Qed.

Create HintDb steps discriminated.
#[local] Hint Resolve steps_ret steps_gets steps_await steps_existingDispatcher
  steps_lookupNullableDispatcher steps_dispatchEvent steps_new_ProgressController
  steps_runAbortableTask steps_ElementHandleDispatcher_new steps_createNullable
  steps_RequestDispatcher_from steps_fromNullable steps_createHandle : steps.

Ltac steps :=
  repeat first
    [ progress eauto with steps
    | apply steps_bind; [|intros ?]
    | apply steps_mapM; intros ?
    | match goal with |- steps (match ?x with _ => _ end) => destruct x end ].

Lemma steps_listener this n : steps (FrameDispatcher.listener this n).
Proof.
  destruct n; simpl;
    unfold FrameDispatcher.onAddLifecycle, FrameDispatcher.onRemoveLifecycle,
      FrameDispatcher.onNavigation; steps.
Qed.

Lemma steps_Frame_emit frame n : steps (Frame_emit frame n).
Proof.
  unfold Frame_emit. steps. apply steps_listener.
Qed.

Lemma steps_from scope frame : steps (FrameDispatcher.from scope frame).
Proof.
  intros st. unfold FrameDispatcher.from, existingDispatcher, bind, gets; cbn beta iota.
  destruct (st_symbol st !! OFrame frame) as [d|] eqn:Hd; [apply rtc_refl|].
  unfold FrameDispatcher.new, bind, gets, modify; cbn beta iota.
  destruct (lookupNullableDispatcher _ st) as [[parent|e] st'] eqn:Hp.
  - assert (st' = st) as ->.
    { revert Hp. unfold lookupNullableDispatcher, gets, ret.
      destruct (OFrame <$> _); intros [= _ <-]; reflexivity. }
    simpl. eapply rtc_l; [apply ps_construct|apply rtc_once, ps_listen].
    intros f [= <-]. exact Hd.
  - exfalso. revert Hp. unfold lookupNullableDispatcher, gets, ret.
    destruct (OFrame <$> _); discriminate.
Qed.

Lemma steps_dispatch E this c st : rtc prim_step st (dispatch E this c st).
Proof.
  destruct c; unfold dispatch;
    match goal with |- rtc _ _ (?m st).2 => revert st; change (steps m) end;
    unfold FrameDispatcher.goto, FrameDispatcher.frameElement,
      FrameDispatcher.evaluateExpression, FrameDispatcher.waitForSelector,
      FrameDispatcher.querySelector, FrameDispatcher.querySelectorAll,
      FrameDispatcher.content, FrameDispatcher.setContent, FrameDispatcher.addScriptTag,
      FrameDispatcher.addStyleTag, FrameDispatcher.click, FrameDispatcher.dblclick,
      FrameDispatcher.fill, FrameDispatcher.textContent, FrameDispatcher.getAttribute,
      FrameDispatcher.hover, FrameDispatcher.selectOption, FrameDispatcher.setInputFiles,
      FrameDispatcher.type, FrameDispatcher.press, FrameDispatcher.check,
      FrameDispatcher.uncheck, FrameDispatcher.title, FrameDispatcher._page,
      FrameDispatcher._timeoutSettings, FrameDispatcher.evaluateExpressionHandle,
      FrameDispatcher.dispatchEvent, FrameDispatcher.evalOnSelector,
      FrameDispatcher.evalOnSelectorAll, FrameDispatcher.focus, FrameDispatcher.innerText,
      FrameDispatcher.innerHTML, FrameDispatcher.waitForFunction,
      FrameDispatcher.extendInjectedScript; steps.
Qed.

Lemma steps_exec st op : rtc prim_step st (exec st op).
Proof.
  destruct op; simpl.
  - apply steps_dispatch.
  - apply steps_from.
  - apply steps_Frame_emit.
  - apply rtc_once, ps_change.
Qed.

Lemma steps_run ops st : rtc prim_step st (run ops st).
Proof.
  revert st. induction ops as [|op ops IH]; intros st; simpl.
  - apply rtc_refl.
  - etrans; [apply steps_exec|apply IH].
Qed.

(** ** What the steps preserve *)

Lemma Inv_initial frames pages : Inv (initial frames pages).
Proof.
  split; simpl.
  - intros d Hd. by apply elem_of_nil in Hd.
  - apply NoDup_nil_2.
  - intros o d Hd. by rewrite lookup_empty in Hd.
  - intros d f Hd. by apply elem_of_nil in Hd.
  - intros parent type g i Hm. by apply elem_of_nil in Hm.
Qed.

Lemma Inv_construct scope o ty init st :
  (forall f, o = OFrame f -> st_symbol st !! o = None) ->
  Inv st -> Inv (new_Dispatcher scope o ty init st).2.
Proof.
  intros Ho [Hg Hn Hs Hf Hc]. split; simpl.
  - intros d [Hd|Hd]%elem_of_app.
    + specialize (Hg d Hd). lia.
    + apply list_elem_of_singleton in Hd. subst d. simpl. lia.
  - apply NoDup_app. split; [exact Hn|]. split; [|apply NoDup_singleton].
    intros d Hd Hd'. apply list_elem_of_singleton in Hd'. subst d.
    specialize (Hg _ Hd). simpl in Hg. lia.
  - intros o' d. destruct (decide (o = o')) as [<-|Hne].
    + rewrite lookup_insert_eq. intros [= <-]. split; [|reflexivity].
      apply elem_of_app. right. apply list_elem_of_singleton. reflexivity.
    + rewrite lookup_insert_ne by exact Hne. intros Hd.
      destruct (Hs _ _ Hd) as [Hin Hobj]. split; [|exact Hobj].
      apply elem_of_app. by left.
  - intros d f [Hd|Hd]%elem_of_app Hobj.
    + pose proof (Hf _ _ Hd Hobj) as Hsym.
      destruct (decide (o = OFrame f)) as [->|Hne].
      * rewrite (Ho f eq_refl) in Hsym. discriminate.
      * by rewrite lookup_insert_ne.
    + apply list_elem_of_singleton in Hd. subst d. simpl in Hobj. subst o.
      apply lookup_insert_eq.
  - intros parent type g i [Hm|Hm]%elem_of_app.
    + specialize (Hc _ _ _ _ Hm). lia.
    + apply list_elem_of_singleton in Hm. injection Hm as -> -> -> ->. lia.
Qed.

Lemma Inv_prim_step st st' : prim_step st st' -> Inv st -> Inv st'.
Proof.
  intros Hstep HI. destruct Hstep as [g n p st|scope o ty init st Ho|f d st|a st|frame f st].
  - destruct HI as [Hg Hn Hs Hf Hc]. split; simpl; try assumption.
    intros parent type g' i [Hm|Hm]%elem_of_app; [by eapply Hc|].
    apply list_elem_of_singleton in Hm. discriminate.
  - by apply Inv_construct.
  - destruct HI as [Hg Hn Hs Hf Hc]. split; simpl; assumption.
  - destruct HI as [Hg Hn Hs Hf Hc]. split; simpl; assumption.
  - destruct HI as [Hg Hn Hs Hf Hc]. split; simpl; assumption.
Qed.

Lemma Inv_rtc st st' : rtc prim_step st st' -> Inv st -> Inv st'.
Proof. induction 1; eauto using Inv_prim_step. Qed.

Lemma symbol_frame_prim_step st st' f d :
  prim_step st st' -> st_symbol st !! OFrame f = Some d -> st_symbol st' !! OFrame f = Some d.
Proof.
  intros Hstep Hd. destruct Hstep as [| scope o ty init st Ho| | |]; simpl; try assumption.
  destruct (decide (o = OFrame f)) as [->|Hne].
  - rewrite (Ho f eq_refl) in Hd. discriminate.
  - by rewrite lookup_insert_ne.
Qed.

Lemma symbol_frame_rtc st st' f d :
  rtc prim_step st st' -> st_symbol st !! OFrame f = Some d -> st_symbol st' !! OFrame f = Some d.
Proof. induction 1; eauto using symbol_frame_prim_step. Qed.

Lemma grows_refl st : grows st st.
Proof.
  split; [lia|]. exists []. split; [by rewrite app_nil_r|].
  intros parent type g i Hm. by apply elem_of_nil in Hm.
Qed.

Lemma grows_trans st1 st2 st3 : grows st1 st2 -> grows st2 st3 -> grows st1 st3.
Proof.
  intros [Hn1 (l1 & Hl1 & Hc1)] [Hn2 (l2 & Hl2 & Hc2)]. split; [lia|].
  exists (l1 ++ l2). split; [by rewrite Hl2, Hl1, app_assoc|].
  intros parent type g i [Hm|Hm]%elem_of_app.
  - specialize (Hc1 _ _ _ _ Hm). lia.
  - specialize (Hc2 _ _ _ _ Hm). lia.
Qed.

Lemma grows_prim_step st st' : prim_step st st' -> grows st st'.
Proof.
  intros Hstep. destruct Hstep as [g n p st|scope o ty init st Ho|f d st|a st|frame f st];
    (split; [simpl; lia|]).
  - eexists. split; [reflexivity|].
    intros parent type g' i Hm. apply list_elem_of_singleton in Hm. discriminate.
  - eexists. split; [reflexivity|].
    intros parent type g' i Hm. apply list_elem_of_singleton in Hm.
    injection Hm as -> -> -> ->. simpl. lia.
  - exists []. split; [by rewrite app_nil_r|]. intros ? ? ? ? Hm. by apply elem_of_nil in Hm.
  - exists []. split; [by rewrite app_nil_r|]. intros ? ? ? ? Hm. by apply elem_of_nil in Hm.
  - exists []. split; [by rewrite app_nil_r|]. intros ? ? ? ? Hm. by apply elem_of_nil in Hm.
Qed.

Lemma grows_rtc st st' : rtc prim_step st st' -> grows st st'.
Proof.
  induction 1 as [|st1 st2 st3 Hstep _ IH]; [apply grows_refl|].
  eapply grows_trans; [apply grows_prim_step, Hstep|exact IH].
Qed.

(** ** FrameDispatcher.from and the constructor *)

Lemma from_existing scope frame st d :
  st_symbol st !! OFrame frame = Some d ->
  FrameDispatcher.from scope frame st = (Ok d, st).
Proof.
  intros Hd. unfold FrameDispatcher.from, existingDispatcher, bind, gets; cbn beta iota.
  by rewrite Hd.
Qed.

Lemma from_none scope frame st :
  st_symbol st !! OFrame frame = None ->
  FrameDispatcher.from scope frame st = FrameDispatcher.new scope frame st.
Proof.
  intros Hd. unfold FrameDispatcher.from, existingDispatcher, bind, gets; cbn beta iota.
  by rewrite Hd.
Qed.

Lemma new_frame scope frame st :
  let f := st_frames st frame in
  let d := {| d_guid := st_nextGuid st; d_type := "Frame"; d_scope := scope;
              d_object := OFrame frame |} in
  let init := {| init_url := frame_url f; init_name := frame_name f;
                 init_parentFrame := frame_parentFrame f ≫= (fun p => st_symbol st !! OFrame p);
                 init_loadStates := frame_subtreeLifecycleEvents f |} in
  FrameDispatcher.new scope frame st =
  (Ok d, add_listener frame d
           (send (MsgCreate scope "Frame" (st_nextGuid st) (InitFrame init))
              (set_symbol (insert (OFrame frame) d) (add_dispatcher d st)))).
Proof.
  unfold FrameDispatcher.new, bind, gets, modify, lookupNullableDispatcher; cbn beta iota.
  destruct (frame_parentFrame (st_frames st frame)) as [p|]; reflexivity.
Qed.

Lemma steps_new scope frame st :
  st_symbol st !! OFrame frame = None ->
  rtc prim_step st (FrameDispatcher.new scope frame st).2.
Proof. intros Hd. rewrite <- (from_none scope frame st Hd). apply steps_from. Qed.

Lemma no_wrapper (l : list Dispatcher) o :
  (forall d', d' ∈ l -> d_object d' <> o) ->
  List.filter (fun d' => bool_decide (d_object d' = o)) l = [].
Proof.
  induction l as [|x l IH]; intros H; [reflexivity|]. simpl.
  rewrite bool_decide_eq_false_2 by (apply H; by left).
  apply IH. intros d' Hd'. apply H. by right.
Qed.

Lemma single_wrapper (l : list Dispatcher) o d :
  NoDup l -> d ∈ l -> d_object d = o ->
  (forall d', d' ∈ l -> d_object d' = o -> d' = d) ->
  List.filter (fun d' => bool_decide (d_object d' = o)) l = [d].
Proof.
  induction l as [|x l IH]; intros Hnd Hd Ho Hall; [by apply elem_of_nil in Hd|].
  apply NoDup_cons in Hnd as [Hx Hnd]. simpl. destruct (decide (x = d)) as [->|Hne].
  - rewrite bool_decide_eq_true_2 by exact Ho. f_equal.
    apply no_wrapper. intros d' Hd' Ho'. apply Hx.
    rewrite <- (Hall d'); [exact Hd'|by right|exact Ho'].
  - rewrite bool_decide_eq_false_2.
    + apply IH; [exact Hnd| |exact Ho|].
      * apply elem_of_cons in Hd as [->|Hd]; [congruence|exact Hd].
      * intros d' Hd' Ho'. apply Hall; [by right|exact Ho'].
    + intros Hxo. apply Hne, Hall; [by left|exact Hxo].
Qed.

(** C4. [FrameDispatcher.from] yields a node that wraps the frame: the one
    that already wraps it, with nothing constructed, or else one new node;
    after anything else that happens on the connection, [from] for that frame
    yields that same node again and constructs nothing, and that node is the
    only one wrapping the frame. *)
Theorem from_returns_the_one_node scope frame st :
  Inv st ->
  exists d,
    (FrameDispatcher.from scope frame st).1 = Ok d /\
    d_object d = OFrame frame /\
    (forall d0, st_symbol st !! OFrame frame = Some d0 ->
       d = d0 /\ (FrameDispatcher.from scope frame st).2 = st) /\
    (st_symbol st !! OFrame frame = None ->
       st_dispatchers (FrameDispatcher.from scope frame st).2 = st_dispatchers st ++ [d]) /\
    forall ops scope',
      let st' := run ops (FrameDispatcher.from scope frame st).2 in
      FrameDispatcher.from scope' frame st' = (Ok d, st') /\
      wrappers (OFrame frame) st' = [d].
Proof.
  intros HI.
  assert (exists d, (FrameDispatcher.from scope frame st).1 = Ok d /\
            st_symbol (FrameDispatcher.from scope frame st).2 !! OFrame frame = Some d /\
            (forall d0, st_symbol st !! OFrame frame = Some d0 ->
               d = d0 /\ (FrameDispatcher.from scope frame st).2 = st) /\
            (st_symbol st !! OFrame frame = None ->
               st_dispatchers (FrameDispatcher.from scope frame st).2
               = st_dispatchers st ++ [d])) as (d & Hres & Hsym & Hex & Hnew).
  { destruct (st_symbol st !! OFrame frame) as [d0|] eqn:Hd0.
    - exists d0. rewrite (from_existing _ _ _ _ Hd0). simpl.
      split; [reflexivity|]. split; [exact Hd0|]. split; [|discriminate].
      intros d1 [= <-]. split; reflexivity.
    - rewrite (from_none _ _ _ Hd0), new_frame. eexists. simpl.
      split; [reflexivity|]. split; [apply lookup_insert_eq|]. split; [discriminate|].
      reflexivity. }
  pose proof (Inv_rtc _ _ (steps_from scope frame st) HI) as HI1.
  exists d. split; [exact Hres|]. split; [by apply (inv_symbol _ HI1)|].
  split; [exact Hex|]. split; [exact Hnew|].
  intros ops scope' st'.
  pose proof (steps_run ops (FrameDispatcher.from scope frame st).2) as Hrun.
  fold st' in Hrun.
  pose proof (Inv_rtc _ _ Hrun HI1) as HI'.
  pose proof (symbol_frame_rtc _ _ _ _ Hrun Hsym) as Hsym'.
  split; [by apply from_existing|].
  destruct (inv_symbol _ HI' _ _ Hsym') as [Hin Hobj].
  apply single_wrapper; [apply (inv_nodup _ HI')|exact Hin|exact Hobj|].
  intros d' Hd' Ho'. pose proof (inv_frame _ HI' _ _ Hd' Ho') as H'. congruence.
Qed.

Lemma Inv_st1 : Inv Example.st1.
Proof. exact (Inv_rtc _ _ (steps_from 0 1 Example.st0) (Inv_initial _ _)). Qed.

(** The main frame, wrapped once more from another scope. *)
Lemma from_returns_the_one_node_witness :
  exists d,
    (FrameDispatcher.from 3 1 Example.st1).1 = Ok d /\
    d_object d = OFrame 1 /\
    (forall d0, st_symbol Example.st1 !! OFrame 1 = Some d0 ->
       d = d0 /\ (FrameDispatcher.from 3 1 Example.st1).2 = Example.st1) /\
    (st_symbol Example.st1 !! OFrame 1 = None ->
       st_dispatchers (FrameDispatcher.from 3 1 Example.st1).2
       = st_dispatchers Example.st1 ++ [d]) /\
    forall ops scope',
      let st' := run ops (FrameDispatcher.from 3 1 Example.st1).2 in
      FrameDispatcher.from scope' 1 st' = (Ok d, st') /\
      wrappers (OFrame 1) st' = [d].
Proof. exact (from_returns_the_one_node 3 1 Example.st1 Inv_st1). Defined.

Lemma creates_of_none g l :
  (forall parent type g' i, MsgCreate parent type g' i ∈ l -> g' <> g) ->
  creates_of g l = [].
Proof.
  induction l as [|m l IH]; intros H; [reflexivity|]. simpl.
  destruct m as [parent type g' i|g' n p]; simpl.
  - destruct (Nat.eqb_spec g' g) as [->|Hne].
    + exfalso. eapply H; [by left|reflexivity].
    + apply IH. intros ? ? ? ? Hm. eapply H. right. exact Hm.
  - apply IH. intros ? ? ? ? Hm. eapply H. right. exact Hm.
Qed.

(** C8. The create message of a frame dispatcher carries the frame's url
    and name, the dispatcher of its parent frame (none without a parent) and
    its subtree lifecycle events as they are when the constructor runs; no
    later request, notification or change of the frame sends another create
    message for the node or alters this one. *)
Theorem initializer_is_a_snapshot scope frame st :
  Inv st ->
  st_symbol st !! OFrame frame = None ->
  let f := st_frames st frame in
  let st1 := (FrameDispatcher.new scope frame st).2 in
  exists init,
    st_sent st1 = st_sent st ++ [MsgCreate scope "Frame" (st_nextGuid st) (InitFrame init)] /\
    init_url init = frame_url f /\
    init_name init = frame_name f /\
    init_parentFrame init = frame_parentFrame f ≫= (fun p => st_symbol st !! OFrame p) /\
    init_loadStates init = frame_subtreeLifecycleEvents f /\
    forall ops,
      creates_of (st_nextGuid st) (st_sent (run ops st1))
      = [MsgCreate scope "Frame" (st_nextGuid st) (InitFrame init)].
Proof.
  intros HI Hnone f st1. subst st1. rewrite new_frame. cbn zeta. eexists.
  split; [reflexivity|]. repeat (split; [reflexivity|]).
  intros ops.
  match goal with |- context [run ops ?s] => set (st1 := s) end.
  destruct (grows_rtc _ _ (steps_run ops st1)) as [_ (l & Hl & Hc)].
  rewrite Hl. unfold creates_of. simpl. rewrite !List.filter_app. simpl.
  rewrite Nat.eqb_refl.
  fold (creates_of (st_nextGuid st) (st_sent st)). fold (creates_of (st_nextGuid st) l).
  rewrite !creates_of_none; [reflexivity| |].
  - intros parent type g' i Hm. specialize (Hc _ _ _ _ Hm). simpl in Hc. lia.
  - intros parent type g' i Hm. pose proof (inv_create _ HI _ _ _ _ Hm). lia.
Qed.

(** The child frame, wrapped when its parent already is. *)
Lemma initializer_is_a_snapshot_witness :
  exists init,
    st_sent (FrameDispatcher.new 0 2 Example.st1).2
    = st_sent Example.st1 ++ [MsgCreate 0 "Frame" 1 (InitFrame init)] /\
    init_url init = "about:blank" /\
    init_name init = "ad" /\
    init_parentFrame init = Some Example.this /\
    init_loadStates init = [] /\
    forall ops,
      creates_of 1 (st_sent (run ops (FrameDispatcher.new 0 2 Example.st1).2))
      = [MsgCreate 0 "Frame" 1 (InitFrame init)].
Proof.
  exact (initializer_is_a_snapshot 0 2 Example.st1 Inv_st1 eq_refl).
Defined.

(** ** Handles returned to the caller *)

Lemma new_handle scope h st :
  ElementHandleDispatcher.new scope h st =
  (Ok (handle_node scope (st_nextGuid st) h),
   send (MsgCreate scope "ElementHandle" (st_nextGuid st) InitOther)
     (set_symbol (insert (OElementHandle h) (handle_node scope (st_nextGuid st) h))
        (add_dispatcher (handle_node scope (st_nextGuid st) h) st))).
Proof. reflexivity. Qed.

Lemma registered_new this h st :
  registered this h (handle_node (d_scope this) (st_nextGuid st) h)
    (ElementHandleDispatcher.new (d_scope this) h st).2.
Proof.
  rewrite new_handle. unfold registered; simpl.
  split; [reflexivity|]. split; [reflexivity|].
  split; [apply elem_of_app; right; by apply list_elem_of_singleton|].
  split; [apply lookup_insert_eq|].
  apply elem_of_app; right; by apply list_elem_of_singleton.
Qed.

Lemma createNullable_some this h st :
  exists d,
    ElementHandleDispatcher.createNullable (d_scope this) (Some h) st
    = (Ok (Some d), (ElementHandleDispatcher.new (d_scope this) h st).2) /\
    registered this h d (ElementHandleDispatcher.new (d_scope this) h st).2.
Proof.
  eexists. split; [reflexivity|]. apply registered_new.
Qed.

(** C7. When querySelector, waitForSelector or frameElement succeeds with
    a handle, the element of the result is a dispatcher that wraps the handle
    in the scope of the frame dispatcher and is registered when the method
    returns; when querySelector or waitForSelector finds no element, the
    element of the result is absent and no node is built. *)
Theorem returned_handles_are_registered E this st :
  (forall p h, fb_querySelector E (channels.selector p) = Ok (Some h) ->
     exists d,
       (FrameDispatcher.querySelector E this p st).1
         = Ok {| channels.nullable_element := Some d |} /\
       registered this h d (FrameDispatcher.querySelector E this p st).2) /\
  (forall p, fb_querySelector E (channels.selector p) = Ok None ->
     FrameDispatcher.querySelector E this p st
       = (Ok {| channels.nullable_element := None |}, st)) /\
  (forall p h, fb_waitForSelector E (channels.selector p) p = Ok (Some h) ->
     exists d,
       (FrameDispatcher.waitForSelector E this p st).1
         = Ok {| channels.nullable_element := Some d |} /\
       registered this h d (FrameDispatcher.waitForSelector E this p st).2) /\
  (forall p, fb_waitForSelector E (channels.selector p) p = Ok None ->
     FrameDispatcher.waitForSelector E this p st
       = (Ok {| channels.nullable_element := None |}, st)) /\
  (forall h, fb_frameElement E = Ok h ->
     exists d,
       (FrameDispatcher.frameElement E this st).1 = Ok {| channels.element := d |} /\
       registered this h d (FrameDispatcher.frameElement E this st).2).
Proof.
  unfold FrameDispatcher.querySelector, FrameDispatcher.waitForSelector,
    FrameDispatcher.frameElement, bind, await.
  repeat split.
  - intros p h ->. destruct (createNullable_some this h st) as (d & -> & Hd).
    exists d. split; [reflexivity|exact Hd].
  - intros p ->. reflexivity.
  - intros p h ->. destruct (createNullable_some this h st) as (d & -> & Hd).
    exists d. split; [reflexivity|exact Hd].
  - intros p ->. reflexivity.
  - intros h ->. exists (handle_node (d_scope this) (st_nextGuid st) h).
    split; [reflexivity|]. apply (registered_new this h st).
Qed.

(** querySelector for ["#submit"] on the example page. *)
Lemma returned_handles_are_registered_witness :
  exists d,
    (FrameDispatcher.querySelector Example.E Example.this (Example.submit None) Example.st1).1
      = Ok {| channels.nullable_element := Some d |} /\
    registered Example.this 5 d
      (FrameDispatcher.querySelector Example.E Example.this (Example.submit None) Example.st1).2.
Proof.
  apply (proj1 (returned_handles_are_registered Example.E Example.this Example.st1)).
  reflexivity.
Defined.

(** ** querySelectorAll, addScriptTag, addStyleTag *)

Lemma mapM_new scope hs st :
  exists st',
    mapM (fun e => ElementHandleDispatcher.new scope e) hs st
      = (Ok (handle_nodes scope (st_nextGuid st) hs), st') /\
    st_dispatchers st' = st_dispatchers st ++ handle_nodes scope (st_nextGuid st) hs.
Proof.
  revert st. induction hs as [|h hs IH]; intros st.
  - exists st. split; [reflexivity|]. by rewrite app_nil_r.
  - cbn [mapM handle_nodes]. unfold bind at 1. rewrite new_handle.
    match goal with
    | |- context [bind (mapM _ hs) _ ?s] => destruct (IH s) as (st2 & Hm & Hd)
    end.
    unfold bind. rewrite Hm. exists st2. split; [reflexivity|].
    rewrite Hd. simpl. by rewrite <- app_assoc.
Qed.

Lemma handle_nodes_guid scope g hs d :
  d ∈ handle_nodes scope g hs -> (g <= d_guid d)%nat.
Proof.
  revert g. induction hs as [|h hs IH]; intros g Hd; [by apply elem_of_nil in Hd|].
  simpl in Hd. apply elem_of_cons in Hd as [->|Hd]; [simpl; lia|].
  specialize (IH _ Hd). lia.
Qed.

Lemma handle_nodes_NoDup scope g hs : NoDup (handle_nodes scope g hs).
Proof.
  revert g. induction hs as [|h hs IH]; intros g; simpl; [apply NoDup_nil_2|].
  apply NoDup_cons. split; [|apply IH].
  intros Hd. apply handle_nodes_guid in Hd. simpl in Hd. lia.
Qed.

(** C10. querySelectorAll builds one new ElementHandleDispatcher for each
    element of the frame's result, whatever the registry holds: the nodes
    are pairwise distinct, also where a handle occurs twice, and none of them
    was constructed before.  addScriptTag and addStyleTag build a new node
    in the same way. *)
Theorem querySelectorAll_constructs_new_nodes E this st :
  Inv st ->
  (forall p hs, fb_querySelectorAll E (channels.selector p) = Ok hs ->
     let r := FrameDispatcher.querySelectorAll E this p st in
     let ds := handle_nodes (d_scope this) (st_nextGuid st) hs in
     r.1 = Ok {| channels.result_elements := ds |} /\
     st_dispatchers r.2 = st_dispatchers st ++ ds /\
     length ds = length hs /\
     NoDup ds /\
     forall d, d ∈ ds -> d ∉ st_dispatchers st) /\
  (forall p h, fb_addScriptTag E p = Ok h ->
     let r := FrameDispatcher.addScriptTag E this p st in
     let d := handle_node (d_scope this) (st_nextGuid st) h in
     r.1 = Ok {| channels.element := d |} /\
     st_dispatchers r.2 = st_dispatchers st ++ [d] /\
     d ∉ st_dispatchers st) /\
  (forall p h, fb_addStyleTag E p = Ok h ->
     let r := FrameDispatcher.addStyleTag E this p st in
     let d := handle_node (d_scope this) (st_nextGuid st) h in
     r.1 = Ok {| channels.element := d |} /\
     st_dispatchers r.2 = st_dispatchers st ++ [d] /\
     d ∉ st_dispatchers st).
Proof.
  intros HI. split; [|split].
  - intros p hs Hhs r ds. subst r ds.
    unfold FrameDispatcher.querySelectorAll, bind at 1 2, await. rewrite Hhs.
    destruct (mapM_new (d_scope this) hs st) as (st' & Hres & Hds).
    unfold bind. rewrite Hres. simpl.
    split; [reflexivity|]. split; [exact Hds|].
    split; [|split; [apply handle_nodes_NoDup|]].
    + clear. generalize (st_nextGuid st). induction hs; intros g; simpl; [reflexivity|].
      by rewrite IHhs.
    + intros d Hd Hold. apply handle_nodes_guid in Hd.
      pose proof (inv_guid _ HI _ Hold). lia.
  - intros p h Hh r d. subst r d.
    unfold FrameDispatcher.addScriptTag, bind, await. rewrite Hh, new_handle. simpl.
    split; [reflexivity|]. split; [reflexivity|].
    intros Hold. pose proof (inv_guid _ HI _ Hold) as Hg. simpl in Hg. lia.
  - intros p h Hh r d. subst r d.
    unfold FrameDispatcher.addStyleTag, bind, await. rewrite Hh, new_handle. simpl.
    split; [reflexivity|]. split; [reflexivity|].
    intros Hold. pose proof (inv_guid _ HI _ Hold) as Hg. simpl in Hg. lia.
Qed.

(** querySelectorAll on the example page, where handle 5 comes twice. *)
Lemma querySelectorAll_constructs_new_nodes_witness :
  let r := FrameDispatcher.querySelectorAll Example.E Example.this (Example.submit None)
             Example.st1 in
  let ds := [handle_node 0 1 5; handle_node 0 2 5; handle_node 0 3 6] in
  r.1 = Ok {| channels.result_elements := ds |} /\
  st_dispatchers r.2 = st_dispatchers Example.st1 ++ ds /\
  length ds = 3%nat /\
  NoDup ds /\
  forall d, d ∈ ds -> d ∉ st_dispatchers Example.st1.
Proof.
  exact (proj1 (querySelectorAll_constructs_new_nodes Example.E Example.this Example.st1
                  Inv_st1) (Example.submit None) [5; 5; 6]%nat eq_refl).
Defined.

(** ** The Navigation listener *)

Lemma onNavigation_run this event st :
  let navigated request_of_document st' :=
    (Ok tt,
     send (MsgEvent (d_guid this) "navigated"
             (Navigated {| np_url := nav_url event; np_name := nav_name event;
                           np_error := err_message <$> nav_error event;
                           np_newDocument := request_of_document |})) st') in
  FrameDispatcher.onNavigation this event st =
  match nav_newDocument event with
  | None => navigated None st
  | Some doc =>
      match doc_request doc with
      | None => navigated (Some {| nd_request := None |}) st
      | Some q =>
          match st_symbol st !! ORequest q with
          | Some d => navigated (Some {| nd_request := Some d |}) st
          | None =>
              navigated
                (Some {| nd_request :=
                           Some {| d_guid := st_nextGuid st; d_type := "Request";
                                   d_scope := d_scope this; d_object := ORequest q |} |})
                (new_Dispatcher (d_scope this) (ORequest q) "Request" InitOther st).2
          end
      end
  end.
Proof.
  unfold FrameDispatcher.onNavigation, bind.
  destruct (nav_newDocument event) as [[[q|]]|]; try reflexivity.
  unfold RequestDispatcher.fromNullable, RequestDispatcher.from, existingDispatcher, bind, gets.
  simpl. destruct (st_symbol st !! ORequest q); reflexivity.
Qed.

Lemma listener_ok this n st : (FrameDispatcher.listener this n st).1 = Ok tt.
Proof.
  destruct n as [e|e|event]; try reflexivity. simpl. rewrite onNavigation_run.
  destruct (nav_newDocument event) as [[[q|]]|]; try reflexivity.
  simpl. destruct (st_symbol st !! ORequest q); reflexivity.
Qed.

Lemma emit_no_listener frame n ls st :
  List.filter (fun l : nat * Dispatcher => Nat.eqb l.1 frame) ls = [] ->
  exists us,
    mapM (fun l : nat * Dispatcher =>
            if Nat.eqb l.1 frame then FrameDispatcher.listener l.2 n else ret tt) ls st
    = (Ok us, st).
Proof.
  induction ls as [|l ls IH]; cbn [mapM List.filter]; intros Hf; [by eexists|].
  destruct (Nat.eqb l.1 frame); [discriminate|].
  destruct (IH Hf) as (us & Hus). unfold bind.
  change (ret tt st) with (@Ok unit tt, st). cbn beta iota. rewrite Hus. by eexists.
Qed.

Lemma emit_single_listener frame n this st :
  List.filter (fun l : nat * Dispatcher => Nat.eqb l.1 frame) (st_listeners st)
    = [(frame, this)] ->
  (Frame_emit frame n st).2 = (FrameDispatcher.listener this n st).2.
Proof.
  intros Hf. unfold Frame_emit, bind at 1, gets at 1. cbn beta iota.
  assert (forall ls, List.filter (fun l : nat * Dispatcher => Nat.eqb l.1 frame) ls
                      = [(frame, this)] ->
            exists us, mapM (fun l : nat * Dispatcher =>
                    if Nat.eqb l.1 frame then FrameDispatcher.listener l.2 n else ret tt) ls st
            = (Ok us, (FrameDispatcher.listener this n st).2)) as Hmap.
  { clear. induction ls as [|l ls IH]; cbn [mapM List.filter]; [discriminate|].
    destruct (Nat.eqb l.1 frame) eqn:Hl; intros Hf.
    - injection Hf as -> Hf. cbn [snd].
      pose proof (listener_ok this n st) as Hok. unfold bind at 1.
      destruct (FrameDispatcher.listener this n st) as [[[]|e] st'] eqn:Hrun;
        simpl in Hok; [|discriminate].
      destruct (emit_no_listener frame n ls st' Hf) as (us & Hus).
      unfold bind. rewrite Hus. by eexists.
    - destruct (IH Hf) as (us & Hus). unfold bind.
      change (ret tt st) with (@Ok unit tt, st). cbn beta iota. rewrite Hus. by eexists. }
  destruct (Hmap _ Hf) as (us & Hus). unfold bind. rewrite Hus. reflexivity.
Qed.

(** C1, as the code has it.  For a Navigation notification the listener
    sends one navigated event, last, with the notification's url, its name
    and the message of its error (absent without one).  Without a new
    document the event has no newDocument; with one, its newDocument holds a
    reference to the dispatcher of the request of the document, absent when
    the document has no request: the node that already wraps the request, or
    else a new Request node whose create message precedes the event. *)
Theorem navigation_is_forwarded this event st :
  let st' := (FrameDispatcher.onNavigation this event st).2 in
  exists params creates,
    st_sent st' = st_sent st ++ creates ++ [MsgEvent (d_guid this) "navigated" (Navigated params)] /\
    np_url params = nav_url event /\
    np_name params = nav_name event /\
    np_error params = err_message <$> nav_error event /\
    match nav_newDocument event with
    | None => np_newDocument params = None /\ creates = []
    | Some doc =>
        match doc_request doc with
        | None => np_newDocument params = Some {| nd_request := None |} /\ creates = []
        | Some q =>
            exists d,
              np_newDocument params = Some {| nd_request := Some d |} /\
              st_symbol st' !! ORequest q = Some d /\
              match st_symbol st !! ORequest q with
              | Some d0 => d = d0 /\ creates = []
              | None =>
                  d_object d = ORequest q /\ d_scope d = d_scope this /\
                  creates = [MsgCreate (d_scope this) "Request" (d_guid d) InitOther]
              end
        end
    end /\
    forall frame,
      List.filter (fun l : nat * Dispatcher => Nat.eqb l.1 frame) (st_listeners st)
        = [(frame, this)] ->
      (Frame_emit frame (Navigation event) st).2 = st'.
Proof.
  intros st'.
  assert (forall frame,
            List.filter (fun l : nat * Dispatcher => Nat.eqb l.1 frame) (st_listeners st)
              = [(frame, this)] ->
            (Frame_emit frame (Navigation event) st).2 = st') as Hemit.
  { intros frame Hf. apply (emit_single_listener frame (Navigation event) this st Hf). }
  revert Hemit. subst st'. rewrite onNavigation_run. cbn zeta.
  destruct (nav_newDocument event) as [[[q|]]|]; simpl.
  - destruct (st_symbol st !! ORequest q) as [d0|] eqn:Hq; simpl; intros Hemit.
    + eexists _, []. split; [reflexivity|]. repeat (split; [reflexivity|]).
      split; [|exact Hemit]. exists d0. split; [reflexivity|]. split; [exact Hq|].
      split; reflexivity.
    + eexists _, [_]. split; [by rewrite <- app_assoc|]. repeat (split; [reflexivity|]).
      split; [|exact Hemit]. eexists. split; [reflexivity|].
      split; [apply lookup_insert_eq|]. repeat split.
  - intros Hemit. eexists _, []. split; [reflexivity|]. repeat (split; [reflexivity|]).
    split; [|exact Hemit]. split; reflexivity.
  - intros Hemit. eexists _, []. split; [reflexivity|]. repeat (split; [reflexivity|]).
    split; [|exact Hemit]. split; reflexivity.
Qed.

(** The navigation of the example, notified to the main frame's dispatcher. *)
Lemma navigation_is_forwarded_witness :
  (Frame_emit 1 (Navigation Example.navigation) Example.st1).2
  = (FrameDispatcher.onNavigation Example.this Example.navigation Example.st1).2.
Proof.
  destruct (navigation_is_forwarded Example.this Example.navigation Example.st1)
    as (params & creates & _ & _ & _ & _ & _ & Hemit).
  apply Hemit. reflexivity.
Defined.

(** C1 as stated fails.  What the event of a new document embeds is the
    dispatcher of a request, not of a response; and for a new document
    without a request it embeds no reference at all. *)
Lemma navigated_embeds_request_not_response :
  let sent event := st_sent (FrameDispatcher.onNavigation Example.this event Example.st1).2 in
  last (sent Example.navigation)
    = Some (MsgEvent 0 "navigated"
              (Navigated {| np_url := "https://example.com/next"; np_name := Some "";
                            np_error := None;
                            np_newDocument :=
                              Some {| nd_request :=
                                        Some {| d_guid := 1; d_type := "Request";
                                                d_scope := 0; d_object := ORequest 7 |} |} |})) /\
  ~ (exists params d r,
       last (sent Example.navigation) = Some (MsgEvent 0 "navigated" (Navigated params)) /\
       np_newDocument params ≫= nd_request = Some d /\
       d_object d = OResponse r) /\
  ~ (exists params d,
       last (sent Example.navigationWithoutRequest)
         = Some (MsgEvent 0 "navigated" (Navigated params)) /\
       np_newDocument params ≫= nd_request = Some d).
Proof.
  split; [reflexivity|]. split.
  - intros (params & d & r & Hlast & Hd & Hr). vm_compute in Hlast.
    injection Hlast as <-. simpl in Hd. injection Hd as <-. discriminate.
  - intros (params & d & Hlast & Hd). vm_compute in Hlast.
    injection Hlast as <-. discriminate.
Qed.

(** * Further properties of the frame dispatcher *)

(** ** Methods that only read *)

Ltac conjuncts := repeat match goal with |- _ /\ _ => split end.

Lemma reads_await {A} (op : Outcome A) : reads (await op) op.
Proof. intros st. split; [reflexivity|]. intros e. reflexivity. Qed.

Lemma reads_await_ret {A B} (op : Outcome A) (f : A -> B) :
  reads (bind (await op) (fun a => ret (f a))) op.
Proof.
  intros st. unfold bind, await, ret. destruct op as [a|e]; simpl.
  - split; [reflexivity|]. intros e. split; discriminate.
  - split; [reflexivity|]. intros e'. split; intros [= ->]; reflexivity.
Qed.

(** X1. content, title, evaluateExpression, evalOnSelector,
    evalOnSelectorAll, dispatchEvent, focus, innerText, innerHTML,
    textContent and getAttribute leave the connection state as it is,
    whatever the outcome, and fail exactly when the frame operation they
    await fails, with its error. *)
Theorem reading_methods_change_nothing E :
  reads (FrameDispatcher.content E) (fb_content E) /\
  reads (FrameDispatcher.title E) (fb_title E) /\
  (forall p, reads (FrameDispatcher.evaluateExpression E p)
     (fb_evaluateExpression E (channels.expression p) (channels.isFunction p)
        (parseArgument E (channels.arg p)))) /\
  (forall p, reads (FrameDispatcher.evalOnSelector E p)
     (fb_evalOnSelector E (channels.evalOnSelector_selector p)
        (channels.evalOnSelector_expression p) (channels.evalOnSelector_isFunction p)
        (parseArgument E (channels.evalOnSelector_arg p)))) /\
  (forall p, reads (FrameDispatcher.evalOnSelectorAll E p)
     (fb_evalOnSelectorAll E (channels.evalOnSelector_selector p)
        (channels.evalOnSelector_expression p) (channels.evalOnSelector_isFunction p)
        (parseArgument E (channels.evalOnSelector_arg p)))) /\
  (forall p, reads (FrameDispatcher.dispatchEvent E p)
     (fb_dispatchEvent E (channels.selector p) (channels.type p)
        (parseArgument E (channels.eventInit p)) p)) /\
  (forall p, reads (FrameDispatcher.focus E p) (fb_focus E (channels.selector p) p)) /\
  (forall p, reads (FrameDispatcher.innerText E p) (fb_innerText E (channels.selector p) p)) /\
  (forall p, reads (FrameDispatcher.innerHTML E p) (fb_innerHTML E (channels.selector p) p)) /\
  (forall p, reads (FrameDispatcher.textContent E p)
     (fb_textContent E (channels.selector p) p)) /\
  (forall p, reads (FrameDispatcher.getAttribute E p)
     (fb_getAttribute E (channels.selector p) (channels.name p) p)).
Proof.
  conjuncts; intros; first [apply reads_await_ret | apply reads_await].
Qed.

(** textContent on a detached frame. *)
Lemma reading_methods_change_nothing_witness :
  (FrameDispatcher.textContent Example.detached (Example.submit None) Example.st1).2
    = Example.st1 /\
  (FrameDispatcher.textContent Example.detached (Example.submit None) Example.st1).1
    = Throw (OtherError "frame was detached").
Proof.
  destruct (proj1 (proj2 (proj2 (proj2 (proj2 (proj2 (proj2 (proj2 (proj2 (proj2
              (reading_methods_change_nothing Example.detached))))))))))
              (Example.submit None) Example.st1) as [Hst Herr].
  split; [exact Hst|]. apply Herr. reflexivity.
Defined.

(** ** Methods that return handles, when the frame fails *)

Lemma fails_clean_await_bind {A B} (op : Outcome A) (k : A -> M B) :
  fails_clean (bind (await op) k) op.
Proof. intros st e ->. reflexivity. Qed.

(** X2. When the frame operation behind frameElement,
    evaluateExpressionHandle, waitForSelector, querySelector,
    querySelectorAll, addScriptTag, addStyleTag, waitForFunction or
    extendInjectedScript fails, the method fails with that error and the
    state stays as it was: no node is built, no message sent. *)
Theorem failed_handle_methods_register_nothing E this :
  fails_clean (FrameDispatcher.frameElement E this) (fb_frameElement E) /\
  (forall p, fails_clean (FrameDispatcher.evaluateExpressionHandle E this p)
     (fb_evaluateExpressionHandle E (channels.expression p) (channels.isFunction p)
        (parseArgument E (channels.arg p)))) /\
  (forall p, fails_clean (FrameDispatcher.waitForSelector E this p)
     (fb_waitForSelector E (channels.selector p) p)) /\
  (forall p, fails_clean (FrameDispatcher.querySelector E this p)
     (fb_querySelector E (channels.selector p))) /\
  (forall p, fails_clean (FrameDispatcher.querySelectorAll E this p)
     (fb_querySelectorAll E (channels.selector p))) /\
  (forall p, fails_clean (FrameDispatcher.addScriptTag E this p) (fb_addScriptTag E p)) /\
  (forall p, fails_clean (FrameDispatcher.addStyleTag E this p) (fb_addStyleTag E p)) /\
  (forall p, fails_clean (FrameDispatcher.waitForFunction E this p)
     (fb_waitForFunctionExpression E (channels.waitForFunction_expression p)
        (channels.waitForFunction_isFunction p)
        (parseArgument E (channels.waitForFunction_arg p)) p)) /\
  (forall p, fails_clean (FrameDispatcher.extendInjectedScript E this p)
     (fb_extendInjectedScript E (channels.source p) (parseArgument E (channels.extend_arg p)))).
Proof.
  conjuncts; intros; apply fails_clean_await_bind.
Qed.

(** frameElement of a detached frame. *)
Lemma failed_handle_methods_register_nothing_witness :
  FrameDispatcher.frameElement Example.detached Example.this Example.st1
  = (Throw (OtherError "frame was detached"), Example.st1).
Proof.
  apply (proj1 (failed_handle_methods_register_nothing Example.detached Example.this)).
  reflexivity.
Defined.

(** ** Interactive methods and the state *)

Lemma only_logs_run {A} (task : ProgressController -> Work A) t am st :
  exists a, (runAbortableTask task t am st).2 = log_action a st.
Proof. eexists. apply runAbortableTask_state. Qed.

(** X3. Whatever its outcome (success, failure of the work, timeout), an
    interactive method changes the state only by recording its one
    controller or task: it builds no node and sends no message. *)
Theorem interactive_methods_only_record E this md :
  (forall p, only_logs (FrameDispatcher.goto E this p md)) /\
  (forall p, only_logs (FrameDispatcher.setContent E this p md)) /\
  (forall p, only_logs (FrameDispatcher.click E this p md)) /\
  (forall p, only_logs (FrameDispatcher.dblclick E this p md)) /\
  (forall p, only_logs (FrameDispatcher.fill E this p md)) /\
  (forall p, only_logs (FrameDispatcher.hover E this p md)) /\
  (forall p, only_logs (FrameDispatcher.selectOption E this p md)) /\
  (forall p, only_logs (FrameDispatcher.setInputFiles E this p md)) /\
  (forall p, only_logs (FrameDispatcher.type E this p md)) /\
  (forall p, only_logs (FrameDispatcher.press E this p md)) /\
  (forall p, only_logs (FrameDispatcher.check E this p md)) /\
  (forall p, only_logs (FrameDispatcher.uncheck E this p md)).
Proof.
  split; [intros p st; eexists; apply goto_state|].
  split; [intros p st; eexists; apply setContent_state|].
  conjuncts; intros p st; interactive; apply only_logs_run.
Qed.

(** ** The keys of the metadata, its page and the budget *)

Lemma dom_object_literal (base : JsObject) props :
  dom (object_literal base props) = dom base ∪ list_to_set props.*1.
Proof.
  revert base. induction props as [|[k v] ps IH]; intros base.
  - simpl. by rewrite union_empty_r_L.
  - change (object_literal base ((k, v) :: ps)) with (object_literal (<[k:=v]> base) ps).
    rewrite IH, dom_insert_L. simpl.
    by rewrite (union_comm_L {[k]} (dom base)), <- union_assoc_L.
Qed.

(** X4. The metadata an interactive method hands on has the keys the
    caller sent and the keys of the method's object literal, and no others:
    nothing the caller sent is dropped, and without incoming metadata the
    keys are [type], [page] and the method's [target] and [value]. *)
Theorem metadata_has_incoming_and_listed_keys E this :
  (forall p, metadata_keys (FrameDispatcher.goto E this p) ["type"; "value"; "page"]) /\
  (forall p, metadata_keys (FrameDispatcher.setContent E this p) ["type"; "value"; "page"]) /\
  (forall p, metadata_keys (FrameDispatcher.click E this p) ["type"; "target"; "page"]) /\
  (forall p, metadata_keys (FrameDispatcher.dblclick E this p) ["type"; "target"; "page"]) /\
  (forall p, metadata_keys (FrameDispatcher.fill E this p)
     ["type"; "value"; "target"; "page"]) /\
  (forall p, metadata_keys (FrameDispatcher.hover E this p) ["type"; "target"; "page"]) /\
  (forall p, metadata_keys (FrameDispatcher.selectOption E this p)
     ["type"; "target"; "page"]) /\
  (forall p, metadata_keys (FrameDispatcher.setInputFiles E this p)
     ["type"; "target"; "page"]) /\
  (forall p, metadata_keys (FrameDispatcher.type E this p)
     ["type"; "value"; "target"; "page"]) /\
  (forall p, metadata_keys (FrameDispatcher.press E this p)
     ["type"; "value"; "target"; "page"]) /\
  (forall p, metadata_keys (FrameDispatcher.check E this p) ["type"; "target"; "page"]) /\
  (forall p, metadata_keys (FrameDispatcher.uncheck E this p) ["type"; "target"; "page"]).
Proof.
  split.
  { intros p md st. rewrite goto_state, handed_metadata_controller.
    eexists; split; [reflexivity|]. apply dom_object_literal. }
  split.
  { intros p md st. rewrite setContent_state, handed_metadata_controller.
    eexists; split; [reflexivity|]. apply dom_object_literal. }
  conjuncts; intros p md st; interactive;
    rewrite runAbortableTask_state, handed_metadata_run;
    (eexists; split; [reflexivity|]; apply dom_object_literal).
Qed.

Lemma last_log_action a st : last (st_actions (log_action a st)) = Some a.
Proof. unfold log_action; simpl. apply last_snoc. Qed.

(** X5. The budget of the task a selector-based method hands to the runner
    is [timeout(params)] of the settings of the frame's page, and the budget
    of the controller goto and setContent create is [navigationTimeout(params)]
    of those settings; the [page] of the metadata is that same page, whatever
    [page] key the caller sent. *)
Theorem budget_comes_from_the_page_of_the_metadata E this md :
  (forall p, budget_of_page this (FrameDispatcher.goto E this p md) true (channels.timeout p)) /\
  (forall p, budget_of_page this (FrameDispatcher.setContent E this p md) true
               (channels.timeout p)) /\
  (forall p, budget_of_page this (FrameDispatcher.click E this p md) false
               (channels.timeout p)) /\
  (forall p, budget_of_page this (FrameDispatcher.dblclick E this p md) false
               (channels.timeout p)) /\
  (forall p, budget_of_page this (FrameDispatcher.fill E this p md) false
               (channels.timeout p)) /\
  (forall p, budget_of_page this (FrameDispatcher.hover E this p md) false
               (channels.timeout p)) /\
  (forall p, budget_of_page this (FrameDispatcher.selectOption E this p md) false
               (channels.timeout p)) /\
  (forall p, budget_of_page this (FrameDispatcher.setInputFiles E this p md) false
               (channels.timeout p)) /\
  (forall p, budget_of_page this (FrameDispatcher.type E this p md) false
               (channels.timeout p)) /\
  (forall p, budget_of_page this (FrameDispatcher.press E this p md) false
               (channels.timeout p)) /\
  (forall p, budget_of_page this (FrameDispatcher.check E this p md) false
               (channels.timeout p)) /\
  (forall p, budget_of_page this (FrameDispatcher.uncheck E this p md) false
               (channels.timeout p)).
Proof.
  split.
  { intros p st page. rewrite goto_state, last_log_action.
    eexists _, _. split; [reflexivity|]. rewrite lookup_object_literal.
    split; reflexivity. }
  split.
  { intros p st page. rewrite setContent_state, last_log_action.
    eexists _, _. split; [reflexivity|]. rewrite lookup_object_literal.
    split; reflexivity. }
  conjuncts; intros p st page; interactive;
    rewrite runAbortableTask_state, last_log_action;
    (eexists _, _; split; [reflexivity|]; rewrite lookup_object_literal; split; reflexivity).
Qed.

(** ** What no request does *)

Lemma quiet_ret b {A} (a : A) : quiet b (ret a).
Proof. intros st. apply rtc_refl. Qed.

Lemma quiet_gets b {A} (f : State -> A) : quiet b (gets f).
Proof. intros st. apply rtc_refl. Qed.

Lemma quiet_await b {A} (p : Outcome A) : quiet b (await p).
Proof. intros st. apply rtc_refl. Qed.

Lemma quiet_bind b {A B} (m : M A) (k : A -> M B) :
  quiet b m -> (forall a, quiet b (k a)) -> quiet b (bind m k).
Proof.
  intros Hm Hk st. unfold bind. specialize (Hm st).
  destruct (m st) as [[a|e] st']; simpl in *; [|exact Hm].
  etrans; [exact Hm|apply Hk].
Qed.

Lemma quiet_mapM b {A B} (f : A -> M B) l :
  (forall a, quiet b (f a)) -> quiet b (mapM f l).
Proof.
  intros Hf. induction l as [|a l IH]; simpl.
  - apply quiet_ret.
  - apply quiet_bind; [apply Hf|]. intros x.
    apply quiet_bind; [apply IH|]. intros xs. apply quiet_ret.
Qed.

Lemma quiet_lookupNullableDispatcher b o : quiet b (lookupNullableDispatcher o).
Proof. destruct o; [apply quiet_gets|apply quiet_ret]. Qed.

Lemma quiet_new_Dispatcher b scope o ty init :
  (forall f, o <> OFrame f) -> quiet b (new_Dispatcher scope o ty init).
Proof. intros Ho st. by apply rtc_once, qs_construct. Qed.

Lemma quiet_new_ProgressController b t am : quiet b (new_ProgressController t am).
Proof. intros st. apply rtc_once, qs_log. Qed.

Lemma quiet_runAbortableTask b {A} (task : ProgressController -> Work A) t am :
  quiet b (runAbortableTask task t am).
Proof. intros st. rewrite runAbortableTask_state. apply rtc_once, qs_log. Qed.

Lemma quiet_ElementHandleDispatcher_new b scope h :
  quiet b (ElementHandleDispatcher.new scope h).
Proof. apply quiet_new_Dispatcher. discriminate. Qed.

Lemma quiet_createNullable b scope h : quiet b (ElementHandleDispatcher.createNullable scope h).
Proof.
  destruct h; simpl; [|apply quiet_ret].
  apply quiet_bind; [apply quiet_ElementHandleDispatcher_new|]. intros; apply quiet_ret.
Qed.

Lemma quiet_createHandle b scope h : quiet b (createHandle scope h).
Proof.
  unfold createHandle. destruct (handle_asElement h).
  - apply quiet_ElementHandleDispatcher_new.
  - apply quiet_new_Dispatcher. discriminate.
Qed.

Lemma quiet_fromNullable b scope r : quiet b (RequestDispatcher.fromNullable scope r).
Proof.
  destruct r; simpl; [|apply quiet_ret].
  apply quiet_bind; [|intros; apply quiet_ret].
  apply quiet_bind; [apply quiet_gets|]. intros [d|].
  - apply quiet_ret.
  - apply quiet_new_Dispatcher. discriminate.
Qed.

Lemma quiet_dispatchEvent this n p : quiet true (_dispatchEvent this n p).
Proof. intros st. by apply rtc_once, qs_event. Qed.

Create HintDb quiet discriminated.
#[local] Hint Resolve quiet_ret quiet_gets quiet_await quiet_lookupNullableDispatcher
  quiet_new_ProgressController quiet_runAbortableTask quiet_ElementHandleDispatcher_new
  quiet_createNullable quiet_createHandle quiet_fromNullable quiet_dispatchEvent : quiet.

Ltac quiet :=
  repeat first
    [ progress eauto with quiet
    | apply quiet_bind; [|intros ?]
    | apply quiet_mapM; intros ?
    | match goal with |- quiet _ (match ?x with _ => _ end) => destruct x end ].

Lemma quiet_dispatch E this c st : rtc (quiet_step false) st (dispatch E this c st).
Proof.
  destruct c; unfold dispatch;
    match goal with |- rtc _ _ (?m st).2 => revert st; change (quiet false m) end;
    unfold FrameDispatcher.goto, FrameDispatcher.frameElement,
      FrameDispatcher.evaluateExpression, FrameDispatcher.waitForSelector,
      FrameDispatcher.querySelector, FrameDispatcher.querySelectorAll,
      FrameDispatcher.content, FrameDispatcher.setContent, FrameDispatcher.addScriptTag,
      FrameDispatcher.addStyleTag, FrameDispatcher.click, FrameDispatcher.dblclick,
      FrameDispatcher.fill, FrameDispatcher.textContent, FrameDispatcher.getAttribute,
      FrameDispatcher.hover, FrameDispatcher.selectOption, FrameDispatcher.setInputFiles,
      FrameDispatcher.type, FrameDispatcher.press, FrameDispatcher.check,
      FrameDispatcher.uncheck, FrameDispatcher.title, FrameDispatcher._page,
      FrameDispatcher._timeoutSettings, FrameDispatcher.evaluateExpressionHandle,
      FrameDispatcher.dispatchEvent, FrameDispatcher.evalOnSelector,
      FrameDispatcher.evalOnSelectorAll, FrameDispatcher.focus, FrameDispatcher.innerText,
      FrameDispatcher.innerHTML, FrameDispatcher.waitForFunction,
      FrameDispatcher.extendInjectedScript; quiet.
Qed.

Lemma quiet_listener this n : quiet true (FrameDispatcher.listener this n).
Proof.
  destruct n; simpl;
    unfold FrameDispatcher.onAddLifecycle, FrameDispatcher.onRemoveLifecycle,
      FrameDispatcher.onNavigation; quiet.
Qed.

Lemma quiet_Frame_emit frame n : quiet true (Frame_emit frame n).
Proof. unfold Frame_emit. quiet. apply quiet_listener. Qed.

(** What a quiet step keeps. *)
Lemma quiet_step_keeps b st st' :
  quiet_step b st st' ->
  st_listeners st' = st_listeners st /\
  st_frames st' = st_frames st /\
  st_pages st' = st_pages st /\
  forall f, st_symbol st' !! OFrame f = st_symbol st !! OFrame f.
Proof.
  intros [scope o ty init st0 Ho|a st0|g n p st0 _]; simpl;
    repeat (split; [reflexivity|]); try reflexivity.
  intros f. apply lookup_insert_ne, Ho.
Qed.

Lemma quiet_rtc_keeps b st st' :
  rtc (quiet_step b) st st' ->
  st_listeners st' = st_listeners st /\
  st_frames st' = st_frames st /\
  st_pages st' = st_pages st /\
  forall f, st_symbol st' !! OFrame f = st_symbol st !! OFrame f.
Proof.
  induction 1 as [|st1 st2 st3 Hstep _ IH]; [by repeat split|].
  destruct (quiet_step_keeps _ _ _ Hstep) as (H1 & H2 & H3 & H4).
  destruct IH as (I1 & I2 & I3 & I4).
  repeat split; try congruence.
Qed.

Lemma request_rtc_sent st st' :
  rtc (quiet_step false) st st' ->
  exists l, st_sent st' = st_sent st ++ l /\ Forall (fun m => is_create m = true) l.
Proof.
  induction 1 as [st|st1 st2 st3 Hstep _ (l & Hl & Hc)].
  - exists []. split; [by rewrite app_nil_r|constructor].
  - destruct Hstep as [scope o ty init st0 Ho|a st0|g n p st0 Hev]; simpl in *.
    + eexists (_ :: l). rewrite Hl, <- app_assoc. split; [reflexivity|].
      constructor; [reflexivity|exact Hc].
    + exists l. split; [exact Hl|exact Hc].
    + discriminate.
Qed.

(** X6. No request to a frame dispatcher, whatever the method and its
    outcome, adds or removes a listener of a frame, changes a page's settings
    or changes which dispatcher wraps a frame; and the only messages the
    request itself sends are create messages, never an event. *)
Theorem requests_keep_listeners_and_frame_nodes E this c st :
  let st' := dispatch E this c st in
  st_listeners st' = st_listeners st /\
  st_pages st' = st_pages st /\
  (forall f, st_symbol st' !! OFrame f = st_symbol st !! OFrame f) /\
  exists l, st_sent st' = st_sent st ++ l /\ Forall (fun m => is_create m = true) l.
Proof.
  intros st'. pose proof (quiet_dispatch E this c st) as Hq. fold st' in Hq.
  destruct (quiet_rtc_keeps _ _ _ Hq) as (H1 & _ & H3 & H4).
  repeat (split; [assumption|]). by apply request_rtc_sent.
Qed.

(** ** querySelectorAll, element by element *)

Lemma handle_nodes_objects scope g hs :
  map d_object (handle_nodes scope g hs) = map OElementHandle hs /\
  Forall (fun d => d_scope d = scope /\ d_type d = "ElementHandle") (handle_nodes scope g hs).
Proof.
  revert g. induction hs as [|h hs IH]; intros g; simpl; [by split|].
  destruct (IH (S g)) as [Ho Hs]. split; [by rewrite Ho|].
  constructor; [by split|exact Hs].
Qed.

Lemma mapM_new_sent scope hs st :
  exists st',
    mapM (fun e => ElementHandleDispatcher.new scope e) hs st
      = (Ok (handle_nodes scope (st_nextGuid st) hs), st') /\
    st_sent st' = st_sent st ++ map create_of (handle_nodes scope (st_nextGuid st) hs) /\
    (forall o, (forall h, h ∈ hs -> o <> OElementHandle h) ->
       st_symbol st' !! o = st_symbol st !! o) /\
    (forall h, h ∈ hs ->
       exists d, d ∈ handle_nodes scope (st_nextGuid st) hs /\
                 st_symbol st' !! OElementHandle h = Some d /\
                 d_object d = OElementHandle h).
Proof.
  revert st. induction hs as [|h hs IH]; intros st.
  - exists st. split; [reflexivity|]. split; [by rewrite app_nil_r|].
    split; [reflexivity|]. intros h Hh. by apply elem_of_nil in Hh.
  - cbn [mapM handle_nodes]. unfold bind at 1. rewrite new_handle.
    match goal with
    | |- context [bind (mapM _ hs) _ ?s] =>
        destruct (IH s) as (st2 & Hm & Hsent & Hkeep & Hsym)
    end.
    unfold bind. rewrite Hm. exists st2. split; [reflexivity|].
    split; [rewrite Hsent; simpl; by rewrite <- app_assoc|]. split.
    + intros o Ho. rewrite Hkeep by (intros h' Hh'; apply Ho; by right).
      simpl. apply lookup_insert_ne. intros Heq. apply (Ho h); [by left|by symmetry].
    + intros h' Hh'. destruct (decide (h' ∈ hs)) as [Hin|Hnin].
      * destruct (Hsym h' Hin) as (d & Hd & Hs & Ho). exists d.
        split; [by right|]. by split.
      * apply elem_of_cons in Hh' as [->|Hh']; [|contradiction].
        exists (handle_node scope (st_nextGuid st) h). split; [by left|].
        split; [|reflexivity].
        rewrite Hkeep by (intros h' Hh' [= ->]; contradiction).
        simpl. apply lookup_insert_eq.
Qed.

(** X7. querySelectorAll returns one dispatcher per element of the frame's
    result, in the frame's order: the i-th wraps the i-th element, in the
    scope of the frame dispatcher; their create messages are sent in that
    order and nothing else is; afterwards every returned element has one of
    the returned dispatchers as its symbol; an empty result gives an empty
    list and leaves the state as it was. *)
Theorem querySelectorAll_keeps_order E this p st hs :
  fb_querySelectorAll E (channels.selector p) = Ok hs ->
  let r := FrameDispatcher.querySelectorAll E this p st in
  exists ds,
    r.1 = Ok {| channels.result_elements := ds |} /\
    map d_object ds = map OElementHandle hs /\
    Forall (fun d => d_scope d = d_scope this /\ d_type d = "ElementHandle") ds /\
    st_sent r.2 = st_sent st ++ map create_of ds /\
    (forall h, h ∈ hs ->
       exists d, d ∈ ds /\ st_symbol r.2 !! OElementHandle h = Some d /\
                 d_object d = OElementHandle h) /\
    (hs = [] -> r = (Ok {| channels.result_elements := [] |}, st)).
Proof.
  intros Hhs r. subst r.
  unfold FrameDispatcher.querySelectorAll, bind at 1 2, await. rewrite Hhs.
  destruct (mapM_new_sent (d_scope this) hs st) as (st' & Hm & Hsent & _ & Hsym).
  unfold bind. rewrite Hm. simpl.
  exists (handle_nodes (d_scope this) (st_nextGuid st) hs).
  destruct (handle_nodes_objects (d_scope this) (st_nextGuid st) hs) as [Ho Hs].
  split; [reflexivity|]. split; [exact Ho|]. split; [exact Hs|]. split; [exact Hsent|].
  split; [exact Hsym|]. intros ->. simpl in Hm. injection Hm as <-. reflexivity.
Qed.

(** The example page: handles 5, 5 and 6. *)
Lemma querySelectorAll_keeps_order_witness :
  let r := FrameDispatcher.querySelectorAll Example.E Example.this (Example.submit None)
             Example.st1 in
  exists ds,
    r.1 = Ok {| channels.result_elements := ds |} /\
    map d_object ds = [OElementHandle 5; OElementHandle 5; OElementHandle 6] /\
    Forall (fun d => d_scope d = 0%nat /\ d_type d = "ElementHandle") ds /\
    st_sent r.2 = st_sent Example.st1 ++ map create_of ds /\
    (forall h, h ∈ [5; 5; 6]%nat ->
       exists d, d ∈ ds /\ st_symbol r.2 !! OElementHandle h = Some d /\
                 d_object d = OElementHandle h) /\
    ([5; 5; 6]%nat = [] -> r = (Ok {| channels.result_elements := [] |}, Example.st1)).
Proof.
  exact (querySelectorAll_keeps_order Example.E Example.this (Example.submit None)
           Example.st1 [5; 5; 6]%nat eq_refl).
Defined.

(** ** Who listens to a frame *)

Lemma Subscribed_initial frames pages : Subscribed (initial frames pages).
Proof. intros f. simpl. by rewrite lookup_empty. Qed.

Lemma Subscribed_quiet b st st' :
  rtc (quiet_step b) st st' -> Subscribed st -> Subscribed st'.
Proof.
  intros Hq HS f. destruct (quiet_rtc_keeps _ _ _ Hq) as (Hl & _ & _ & Hsym).
  rewrite Hl, Hsym. apply HS.
Qed.

Lemma Subscribed_from scope frame st :
  Subscribed st -> Subscribed (FrameDispatcher.from scope frame st).2.
Proof.
  intros HS. destruct (st_symbol st !! OFrame frame) as [d|] eqn:Hd.
  - by rewrite (from_existing _ _ _ _ Hd).
  - rewrite (from_none _ _ _ Hd), new_frame. cbn zeta. intros f. simpl.
    rewrite List.filter_app, HS. simpl.
    destruct (Nat.eqb_spec frame f) as [<-|Hne].
    + rewrite Hd, lookup_insert_eq. reflexivity.
    + rewrite lookup_insert_ne by congruence. by rewrite app_nil_r.
Qed.

Lemma Subscribed_exec st op : Subscribed st -> Subscribed (exec st op).
Proof.
  destruct op as [E this c|scope frame|frame n|frame f]; simpl.
  - apply (Subscribed_quiet false), quiet_dispatch.
  - apply Subscribed_from.
  - apply (Subscribed_quiet true), quiet_Frame_emit.
  - intros HS. exact HS.
Qed.

Lemma Subscribed_run ops st : Subscribed st -> Subscribed (run ops st).
Proof.
  revert st. induction ops as [|op ops IH]; intros st HS; [exact HS|].
  simpl. apply IH, Subscribed_exec, HS.
Qed.

Lemma emit_to_nobody frame n st :
  List.filter (fun l : nat * Dispatcher => Nat.eqb l.1 frame) (st_listeners st) = [] ->
  Frame_emit frame n st = (Ok tt, st).
Proof.
  intros Hf. unfold Frame_emit, bind at 1, gets at 1. cbn beta iota.
  destruct (emit_no_listener frame n _ st Hf) as (us & Hus).
  unfold bind. by rewrite Hus.
Qed.

(** X8. On a connection that started fresh, after any requests, from
    calls, notifications and frame changes, a frame that has a dispatcher has
    exactly that dispatcher listening, so a notification of the frame runs its
    listener once; a notification of a frame without a dispatcher does
    nothing. *)
Theorem one_listener_per_wrapped_frame frames pages ops frame n :
  let st := run ops (initial frames pages) in
  match st_symbol st !! OFrame frame with
  | Some d =>
      List.filter (fun l : nat * Dispatcher => Nat.eqb l.1 frame) (st_listeners st)
        = [(frame, d)] /\
      (Frame_emit frame n st).2 = (FrameDispatcher.listener d n st).2
  | None => Frame_emit frame n st = (Ok tt, st)
  end.
Proof.
  intros st.
  pose proof (Subscribed_run ops _ (Subscribed_initial frames pages) frame) as HS.
  fold st in HS. destruct (st_symbol st !! OFrame frame) as [d|].
  - split; [exact HS|]. by apply emit_single_listener.
  - by apply emit_to_nobody.
Qed.

(** ** Events in the order of the notifications *)

Lemma listener_sent this n st :
  exists l,
    st_sent (FrameDispatcher.listener this n st).2 = st_sent st ++ l /\
    event_heads l = [(d_guid this, event_name n)] /\
    (is_lifecycle n = true -> l = omap (loadstate_event this) [n]).
Proof.
  destruct n as [e|e|event]; simpl.
  - eexists [_]. repeat split; reflexivity.
  - eexists [_]. repeat split; reflexivity.
  - rewrite onNavigation_run. cbn zeta.
    destruct (nav_newDocument event) as [[[q|]]|]; simpl.
    + destruct (st_symbol st !! ORequest q); simpl.
      * eexists [_]. split; [reflexivity|]. split; [reflexivity|discriminate].
      * eexists [_; _]. split; [by rewrite <- app_assoc|].
        split; [reflexivity|discriminate].
    + eexists [_]. split; [reflexivity|]. split; [reflexivity|discriminate].
    + eexists [_]. split; [reflexivity|]. split; [reflexivity|discriminate].
Qed.

Lemma notifications_from frame d ns st :
  Subscribed st ->
  st_symbol st !! OFrame frame = Some d ->
  exists l,
    st_sent (run (map (OpEmit frame) ns) st) = st_sent st ++ l /\
    event_heads l = map (fun n => (d_guid d, event_name n)) ns /\
    (forallb is_lifecycle ns = true -> l = omap (loadstate_event d) ns).
Proof.
  revert st. induction ns as [|n ns IH]; intros st HS Hd.
  - exists []. simpl. split; [by rewrite app_nil_r|]. by split.
  - change (run (map (OpEmit frame) (n :: ns)) st)
      with (run (map (OpEmit frame) ns) (Frame_emit frame n st).2).
    pose proof (HS frame) as Hf. rewrite Hd in Hf.
    pose proof (quiet_Frame_emit frame n st) as Hq.
    pose proof (Subscribed_quiet _ _ _ Hq HS) as HS1.
    destruct (quiet_rtc_keeps _ _ _ Hq) as (_ & _ & _ & Hsym).
    pose proof (Hsym frame) as Hd1. rewrite Hd in Hd1.
    destruct (IH _ HS1 Hd1) as (l2 & Hl2 & Hh2 & Hc2).
    destruct (listener_sent d n st) as (l1 & Hl1 & Hh1 & Hc1).
    exists (l1 ++ l2).
    split; [by rewrite Hl2, (emit_single_listener frame n d st Hf), Hl1, app_assoc|]. split.
    + unfold event_heads in *. by rewrite omap_app, Hh1, Hh2.
    + intros [Hn Hns]%andb_prop. rewrite (Hc1 Hn), (Hc2 Hns).
      change (n :: ns) with ([n] ++ ns). by rewrite omap_app.
Qed.

(** X9. On a connection that started fresh, however it went on, the
    notifications of a frame that has a dispatcher give one event each for
    that dispatcher, in the order of the notifications, loadstate for a
    lifecycle notification and navigated for a navigation; lifecycle
    notifications give exactly their loadstate events (add or remove, with
    the lifecycle event) and no other message. *)
Theorem events_follow_notifications frames pages ops frame d ns :
  let st := run ops (initial frames pages) in
  st_symbol st !! OFrame frame = Some d ->
  exists l,
    st_sent (run (map (OpEmit frame) ns) st) = st_sent st ++ l /\
    event_heads l = map (fun n => (d_guid d, event_name n)) ns /\
    (forallb is_lifecycle ns = true -> l = omap (loadstate_event d) ns).
Proof.
  intros st Hd. apply notifications_from; [|exact Hd].
  apply Subscribed_run, Subscribed_initial.
Qed.

(** The main frame reports load, a navigation, and load removed. *)
Lemma events_follow_notifications_witness :
  let ns := [AddLifecycle "load"; Navigation Example.navigation; RemoveLifecycle "load"] in
  exists l,
    st_sent (run (map (OpEmit 1) ns) (run [OpFrom 0 1] Example.st0))
      = st_sent (run [OpFrom 0 1] Example.st0) ++ l /\
    event_heads l = [(0, "loadstate"); (0, "navigated"); (0, "loadstate")]%nat /\
    (forallb is_lifecycle ns = true -> l = omap (loadstate_event Example.this) ns).
Proof.
  exact (events_follow_notifications Example.frames Example.pages [OpFrom 0 1] 1 Example.this
           [AddLifecycle "load"; Navigation Example.navigation; RemoveLifecycle "load"]
           eq_refl).
Defined.

(** ** Create messages come first *)

Lemma created_app g l l' : created g l -> created g (l ++ l').
Proof.
  intros (parent & type & i & H). exists parent, type, i. apply elem_of_app. by left.
Qed.

Lemma created_snoc parent type g i l : created g (l ++ [MsgCreate parent type g i]).
Proof.
  exists parent, type, i. apply elem_of_app. right. by apply list_elem_of_singleton.
Qed.

Lemma create_first_snoc_create l parent type g i :
  create_first l -> create_first (l ++ [MsgCreate parent type g i]).
Proof.
  intros Hl j g' n p Hj. destruct (decide (j < length l)%nat) as [Hlt|Hge].
  - rewrite lookup_app_l in Hj by exact Hlt.
    rewrite take_app_le by lia. exact (Hl _ _ _ _ Hj).
  - rewrite lookup_app_r in Hj by lia.
    apply list_lookup_singleton_Some in Hj as [_ Hj]. discriminate.
Qed.

Lemma create_first_snoc_event l g n p :
  create_first l ->
  created g l ->
  (forall d, d ∈ references p -> created (d_guid d) l) ->
  create_first (l ++ [MsgEvent g n p]).
Proof.
  intros Hl Hg Hrefs j g' n' p' Hj. destruct (decide (j < length l)%nat) as [Hlt|Hge].
  - rewrite lookup_app_l in Hj by exact Hlt.
    rewrite take_app_le by lia. exact (Hl _ _ _ _ Hj).
  - rewrite lookup_app_r in Hj by lia.
    apply list_lookup_singleton_Some in Hj as [Hj [= <- <- <-]].
    assert (j = length l) as -> by lia. rewrite take_app_length. by split.
Qed.

Lemma Ordered_initial frames pages : Ordered (initial frames pages).
Proof.
  split; simpl.
  - intros f d Hd. by apply elem_of_nil in Hd.
  - intros o d Hd. by rewrite lookup_empty in Hd.
  - intros i g n p Hi. by rewrite lookup_nil in Hi.
Qed.

Lemma Ordered_construct scope o ty init st :
  Ordered st -> Ordered (new_Dispatcher scope o ty init st).2.
Proof.
  intros [Hl Hs Ho]. split; simpl.
  - intros f d Hd. apply created_app. by eapply Hl.
  - intros o' d. destruct (decide (o = o')) as [<-|Hne].
    + rewrite lookup_insert_eq. intros [= <-]. apply created_snoc.
    + rewrite lookup_insert_ne by exact Hne. intros Hd. apply created_app. by eapply Hs.
  - by apply create_first_snoc_create.
Qed.

Lemma Ordered_event g n p st :
  Ordered st ->
  created g (st_sent st) ->
  (forall d, d ∈ references p -> created (d_guid d) (st_sent st)) ->
  Ordered (send (MsgEvent g n p) st).
Proof.
  intros [Hl Hs Ho] Hg Hrefs. split; simpl.
  - intros f d Hd. apply created_app. by eapply Hl.
  - intros o d Hd. apply created_app. by eapply Hs.
  - by apply create_first_snoc_event.
Qed.

Lemma Ordered_request st st' :
  rtc (quiet_step false) st st' -> Ordered st -> Ordered st'.
Proof.
  induction 1 as [|st1 st2 st3 Hstep _ IH]; intros HO; [exact HO|]. apply IH.
  destruct Hstep as [scope o ty init st0 Ho|a st0|g n p st0 Hev].
  - by apply Ordered_construct.
  - destruct HO as [Hl Hs Ho]. by split.
  - discriminate.
Qed.

Lemma Ordered_listener this n st :
  Ordered st ->
  created (d_guid this) (st_sent st) ->
  Ordered (FrameDispatcher.listener this n st).2.
Proof.
  intros HO Hg. destruct n as [e|e|event]; simpl.
  - apply Ordered_event; [exact HO|exact Hg|]. intros d Hd. by apply elem_of_nil in Hd.
  - apply Ordered_event; [exact HO|exact Hg|]. intros d Hd. by apply elem_of_nil in Hd.
  - rewrite onNavigation_run. cbn zeta.
    destruct (nav_newDocument event) as [[[q|]]|]; simpl.
    + destruct (st_symbol st !! ORequest q) as [d0|] eqn:Hq; simpl.
      * apply Ordered_event; [exact HO|exact Hg|]. simpl. intros d Hd.
        apply list_elem_of_singleton in Hd. subst d. by eapply (ord_symbol _ HO).
      * apply (Ordered_event _ _ _ (new_Dispatcher (d_scope this) (ORequest q) "Request"
                                      InitOther st).2).
        -- by apply Ordered_construct.
        -- simpl. by apply created_app.
        -- simpl. intros d Hd. apply list_elem_of_singleton in Hd. subst d.
           apply created_snoc.
    + apply Ordered_event; [exact HO|exact Hg|]. intros d Hd. by apply elem_of_nil in Hd.
    + apply Ordered_event; [exact HO|exact Hg|]. intros d Hd. by apply elem_of_nil in Hd.
Qed.

Lemma Ordered_listeners frame n ls st :
  (forall l, l ∈ ls -> created (d_guid l.2) (st_sent st)) ->
  Ordered st ->
  Ordered (mapM (fun l : nat * Dispatcher =>
                   if Nat.eqb l.1 frame then FrameDispatcher.listener l.2 n else ret tt)
             ls st).2.
Proof.
  revert st. induction ls as [|l ls IH]; intros st Hls HO; [exact HO|].
  cbn [mapM]. unfold bind at 1. destruct (Nat.eqb l.1 frame).
  - pose proof (listener_ok l.2 n st) as Hok.
    pose proof (Ordered_listener l.2 n st HO (Hls l ltac:(by left))) as HO1.
    destruct (listener_sent l.2 n st) as (l1 & Hl1 & _).
    destruct (FrameDispatcher.listener l.2 n st) as [[[]|e] st1]; simpl in *; [|discriminate].
    assert (Ordered (mapM (fun l0 : nat * Dispatcher =>
                if Nat.eqb l0.1 frame then FrameDispatcher.listener l0.2 n else ret tt)
              ls st1).2) as HO2.
    { apply IH; [|exact HO1]. intros l' Hl'. rewrite Hl1. apply created_app, Hls. by right. }
    unfold bind. destruct (mapM _ ls st1) as [[us|e] st2]; exact HO2.
  - change (ret tt st) with (@Ok unit tt, st). cbn beta iota.
    assert (Ordered (mapM (fun l0 : nat * Dispatcher =>
                if Nat.eqb l0.1 frame then FrameDispatcher.listener l0.2 n else ret tt)
              ls st).2) as HO2.
    { apply IH; [|exact HO]. intros l' Hl'. apply Hls. by right. }
    unfold bind. destruct (mapM _ ls st) as [[us|e] st2]; exact HO2.
Qed.

Lemma Ordered_Frame_emit frame n st : Ordered st -> Ordered (Frame_emit frame n st).2.
Proof.
  intros HO. unfold Frame_emit, bind at 1, gets at 1. cbn beta iota.
  pose proof (Ordered_listeners frame n (st_listeners st) st) as H.
  unfold bind. destruct (mapM _ (st_listeners st) st) as [[us|e] st']; simpl in *;
    (apply H; [|exact HO]); intros [f d] Hl; by eapply (ord_listeners _ HO).
Qed.

Lemma Ordered_listen f d st :
  Ordered st -> created (d_guid d) (st_sent st) -> Ordered (add_listener f d st).
Proof.
  intros [Hl Hs Ho] Hd. split; simpl; [|exact Hs|exact Ho].
  intros f' d' [Hin|Hin]%elem_of_app; [by eapply Hl|].
  apply list_elem_of_singleton in Hin. by injection Hin as -> ->.
Qed.

Lemma Ordered_from scope frame st :
  Ordered st -> Ordered (FrameDispatcher.from scope frame st).2.
Proof.
  intros HO. destruct (st_symbol st !! OFrame frame) as [d|] eqn:Hd.
  - by rewrite (from_existing _ _ _ _ Hd).
  - rewrite (from_none _ _ _ Hd), new_frame. cbn zeta.
    match goal with
    | |- Ordered (_, add_listener ?f ?d (send (MsgCreate _ _ _ ?i) _)).2 =>
        change (Ordered (add_listener f d
                  (new_Dispatcher scope (OFrame frame) "Frame" i st).2))
    end.
    apply Ordered_listen; [by apply Ordered_construct|]. simpl. apply created_snoc.
Qed.

Lemma Ordered_exec st op : Ordered st -> Ordered (exec st op).
Proof.
  destruct op as [E this c|scope frame|frame n|frame f]; simpl.
  - apply Ordered_request, quiet_dispatch.
  - apply Ordered_from.
  - apply Ordered_Frame_emit.
  - intros [Hl Hs Ho]. by split.
Qed.

Lemma Ordered_run ops st : Ordered st -> Ordered (run ops st).
Proof.
  revert st. induction ops as [|op ops IH]; intros st HO; [exact HO|].
  simpl. apply IH, Ordered_exec, HO.
Qed.

(** X10. On a connection that started fresh, after any requests, from
    calls, notifications and frame changes, every event among the messages
    sent comes after the create message of its own node and after the create
    message of every node its params refer to (the request of a navigated
    event). *)
Theorem creates_precede_events frames pages ops :
  create_first (st_sent (run ops (initial frames pages))).
Proof. apply ord_sent, Ordered_run, Ordered_initial. Qed.

(** The main frame is wrapped and navigates: the navigated event is third,
    after the create messages of the frame node and of the request node. *)
Lemma creates_precede_events_witness :
  let sent := st_sent (run [OpFrom 0 1; OpEmit 1 (Navigation Example.navigation)]
                         Example.st0) in
  created 0 (take 2 sent) /\
  forall d, d ∈ [{| d_guid := 1; d_type := "Request"; d_scope := 0;
                    d_object := ORequest 7 |}] ->
    created (d_guid d) (take 2 sent).
Proof.
  exact (creates_precede_events Example.frames Example.pages
           [OpFrom 0 1; OpEmit 1 (Navigation Example.navigation)] 2%nat 0%nat "navigated"
           (Navigated {| np_url := "https://example.com/next"; np_name := Some "";
                         np_error := None;
                         np_newDocument :=
                           Some {| nd_request :=
                                     Some {| d_guid := 1; d_type := "Request"; d_scope := 0;
                                             d_object := ORequest 7 |} |} |})
           eq_refl).
Defined.

(** ** The registry of a running connection *)

Lemma guids_prim_step st st' :
  prim_step st st' ->
  NoDup (map d_guid (st_dispatchers st)) /\
    (forall d, d ∈ st_dispatchers st -> (d_guid d < st_nextGuid st)%nat) ->
  NoDup (map d_guid (st_dispatchers st')) /\
    (forall d, d ∈ st_dispatchers st' -> (d_guid d < st_nextGuid st')%nat).
Proof.
  intros Hstep [Hn Hg]. destruct Hstep as [| scope o ty init st Ho| | |]; simpl; try by split.
  split.
  - rewrite map_app. apply NoDup_app. split; [exact Hn|]. split; [|apply NoDup_singleton].
    intros g Hin Hg'. apply list_elem_of_singleton in Hg'. subst g.
    apply list_elem_of_fmap in Hin as (d & Hd & Hin). specialize (Hg _ Hin). simpl in Hd. lia.
  - intros d [Hd|Hd]%elem_of_app.
    + specialize (Hg _ Hd). lia.
    + apply list_elem_of_singleton in Hd. subst d. simpl. lia.
Qed.

Lemma guids_rtc st st' :
  rtc prim_step st st' ->
  NoDup (map d_guid (st_dispatchers st)) /\
    (forall d, d ∈ st_dispatchers st -> (d_guid d < st_nextGuid st)%nat) ->
  NoDup (map d_guid (st_dispatchers st')) /\
    (forall d, d ∈ st_dispatchers st' -> (d_guid d < st_nextGuid st')%nat).
Proof. induction 1; eauto using guids_prim_step. Qed.

(** X11. On a connection that started fresh, after any requests, from
    calls, notifications and frame changes: no two dispatchers have the same
    guid; at most one dispatcher wraps any frame, the one [from] returns for
    it; and the dispatcher an object's symbol names was constructed for that
    object. *)
Theorem registry_of_a_running_connection frames pages ops :
  let st := run ops (initial frames pages) in
  NoDup (map d_guid (st_dispatchers st)) /\
  (forall frame,
     wrappers (OFrame frame) st
     = match st_symbol st !! OFrame frame with
       | Some d => [d]
       | None => []
       end) /\
  (forall o d, st_symbol st !! o = Some d -> d ∈ st_dispatchers st /\ d_object d = o).
Proof.
  intros st.
  pose proof (Inv_rtc _ _ (steps_run ops (initial frames pages)) (Inv_initial frames pages))
    as HI. fold st in HI.
  split; [|split].
  - apply (guids_rtc _ _ (steps_run ops (initial frames pages))). simpl.
    split; [apply NoDup_nil_2|]. intros d Hd. by apply elem_of_nil in Hd.
  - intros frame. destruct (st_symbol st !! OFrame frame) as [d|] eqn:Hd.
    + destruct (inv_symbol _ HI _ _ Hd) as [Hin Hobj].
      apply single_wrapper; [apply (inv_nodup _ HI)|exact Hin|exact Hobj|].
      intros d' Hd' Ho'. pose proof (inv_frame _ HI _ _ Hd' Ho'). congruence.
    + apply no_wrapper. intros d' Hd' Ho'.
      pose proof (inv_frame _ HI _ _ Hd' Ho'). congruence.
  - apply (inv_symbol _ HI).
Qed.

(** After the main frame is wrapped and its elements are queried, the symbol
    of handle 5 is the second node built for it. *)
Lemma registry_of_a_running_connection_witness :
  let st := run [OpFrom 0 1;
                 OpCall Example.E Example.this (CQuerySelectorAll (Example.submit None))]
              Example.st0 in
  handle_node 0 2 5 ∈ st_dispatchers st /\
  d_object (handle_node 0 2 5) = OElementHandle 5.
Proof.
  apply (proj2 (proj2 (registry_of_a_running_connection Example.frames Example.pages
           [OpFrom 0 1;
            OpCall Example.E Example.this (CQuerySelectorAll (Example.submit None))]))).
  reflexivity.
Defined.
